(** * The code-generation proxy of [server.js]

    A shallow embedding of the [POST /api/generate] handler: the cache key
    derivation, the Redis lookup and store with expiry, the upstream call
    through axios with its failure modes, the clean-up of the generated
    text and the single [catch] block that turns every thrown error into
    a 500 response. *)

From Stdlib Require Import NArith ZArith Lia ZifyBool List Ascii String.
From Stdlib.Strings Require Import Byte.
From stdpp Require Import base option list gmap strings pretty.
Import ListNotations.

Local Open Scope N_scope.
Set Warnings "-register-all".

(* ===================================================================== *)
(** ** JavaScript strings *)
(* ===================================================================== *)

(** A JavaScript string is a sequence of UTF-16 code units, each below
    2^16. *)
Abbreviation jsstring := (list N).

(** The string written by an ASCII literal of the source. *)
Definition js (s : string) : jsstring :=
  map N_of_ascii (list_ascii_of_string s).
Arguments js s%_string.

Definition jsstring_eqb (a b : jsstring) : bool := bool_decide (a = b).

(** [arr.join(sep)] on an array of strings. *)
Fixpoint join (sep : jsstring) (parts : list jsstring) : jsstring :=
  match parts with
  | [] => []
  | [p] => p
  | p :: rest => p ++ sep ++ join sep rest
  end.

(** [arr.includes(x)]. *)
Definition includes (arr : list jsstring) (x : jsstring) : bool :=
  existsb (jsstring_eqb x) arr.

(** Decimal rendering of a number inside a template literal. *)
Definition decimal (n : N) : jsstring := js (pretty n).

(* ===================================================================== *)
(** ** [Buffer.from(prompt)]: the UTF-8 bytes of a string *)
(* ===================================================================== *)

Definition byte_of (n : N) : byte := default x00 (Byte.of_N n).

Definition is_high_surrogate (u : N) : bool := (0xD800 <=? u) && (u <=? 0xDBFF).
Definition is_low_surrogate (u : N) : bool := (0xDC00 <=? u) && (u <=? 0xDFFF).

(** The values of the one to four bytes that encode a code point. *)
Definition utf8_units (c : N) : list N :=
  if c <? 0x80 then [c]
  else if c <? 0x800 then [0xC0 + c / 64; 0x80 + c mod 64]
  else if c <? 0x10000 then
    [0xE0 + c / 4096; 0x80 + (c / 64) mod 64; 0x80 + c mod 64]
  else
    [0xF0 + c / 262144; 0x80 + (c / 4096) mod 64;
     0x80 + (c / 64) mod 64; 0x80 + c mod 64].

Definition utf8_of_code_point (c : N) : list byte :=
  map byte_of (utf8_units c).

(** U+FFFD, written for a surrogate that has no partner. *)
Definition utf8_replacement : list byte := [xef; xbf; xbd].

Fixpoint utf8_encode (s : jsstring) : list byte :=
  match s with
  | [] => []
  | u :: t =>
      if is_high_surrogate u then
        match t with
        | v :: t' =>
            if is_low_surrogate v
            then utf8_of_code_point
                   (0x10000 + (u - 0xD800) * 1024 + (v - 0xDC00))
                 ++ utf8_encode t'
            else utf8_replacement ++ utf8_encode t
        | [] => utf8_replacement
        end
      else if is_low_surrogate u then utf8_replacement ++ utf8_encode t
      else utf8_of_code_point u ++ utf8_encode t
  end.

(** What is read back of a string that was written as UTF-8: every lone
    surrogate has become U+FFFD, the rest is unchanged.  (node-redis sends
    keys and values as UTF-8 and decodes replies as UTF-8.) *)
Fixpoint toWellFormed (s : jsstring) : jsstring :=
  match s with
  | [] => []
  | u :: t =>
      if is_high_surrogate u then
        match t with
        | v :: t' =>
            if is_low_surrogate v
            then u :: v :: toWellFormed t'
            else 0xFFFD :: toWellFormed t
        | [] => [0xFFFD]
        end
      else if is_low_surrogate u then 0xFFFD :: toWellFormed t
      else u :: toWellFormed t
  end.

(* ===================================================================== *)
(** ** [buf.toString('base64')] *)
(* ===================================================================== *)

Definition base64_alphabet : jsstring :=
  js "ABCDEFGHIJKLMNOPQRSTUVWXYZabcdefghijklmnopqrstuvwxyz0123456789+/".

Definition base64_pad : N := 61.   (* '=' *)

Definition base64_char (i : N) : N := nth (N.to_nat i) base64_alphabet 0.

Fixpoint base64 (bs : list byte) : jsstring :=
  match bs with
  | [] => []
  | a :: t1 =>
      let a := Byte.to_N a in
      match t1 with
      | [] =>
          [base64_char (a / 4); base64_char ((a mod 4) * 16);
           base64_pad; base64_pad]
      | b :: t2 =>
          let b := Byte.to_N b in
          match t2 with
          | [] =>
              [base64_char (a / 4);
               base64_char ((a mod 4) * 16 + b / 16);
               base64_char ((b mod 16) * 4);
               base64_pad]
          | c :: rest =>
              let c := Byte.to_N c in
              base64_char (a / 4)
              :: base64_char ((a mod 4) * 16 + b / 16)
              :: base64_char ((b mod 16) * 4 + c / 64)
              :: base64_char (c mod 64)
              :: base64 rest
          end
      end
  end.

(* ===================================================================== *)
(** ** JSON values and thrown errors *)
(* ===================================================================== *)

(** The values that reach the handler through [JSON.parse], together with
    [undefined].  A number is kept as the text [String(n)] gives for it
    ([1e+21] for 1e21, [0.5], [0] for both zeros), which is all the
    handler ever reads of a number.  An object is one that has no member
    named [toString] or [valueOf] of its own. *)
Inductive Value :=
| VUndefined
| VNull
| VBool (b : bool)
| VNum (text : jsstring)
| VStr (s : jsstring)
| VArr (items : list Value)
| VObj (props : list (jsstring * Value)).

(** The truthiness test of [if (v)], [!v] and [v || w]. *)
Definition truthy (v : Value) : bool :=
  match v with
  | VUndefined | VNull => false
  | VBool b => b
  | VNum text => negb (bool_decide (text = js "0"))
  | VStr s => negb (bool_decide (s = []))
  | VArr _ | VObj _ => true
  end.

Fixpoint assoc (name : jsstring) (props : list (jsstring * Value)) : Value :=
  match props with
  | [] => VUndefined
  | (k, v) :: rest => if jsstring_eqb k name then v else assoc name rest
  end.

(** The string a value turns into inside a template literal. *)
Fixpoint ToString (v : Value) : jsstring :=
  match v with
  | VUndefined => js "undefined"
  | VNull => js "null"
  | VBool true => js "true"
  | VBool false => js "false"
  | VNum text => text
  | VStr s => s
  | VArr items =>
      join (js ",")
        (map (fun x => match x with
                       | VUndefined | VNull => []
                       | _ => ToString x
                       end) items)
  | VObj _ => js "[object Object]"
  end.

(** The part of an HTTP reply that axios attaches to a rejection. *)
Record HttpResponse := { status : N; data : Value }.

(** A thrown error as the [catch] block reads it: [error.message] and
    [error.response], which only axios sets. *)
Record JsError := { message : jsstring; response : option HttpResponse }.

Definition TypeError (msg : string) : JsError :=
  {| message := js msg; response := None |}.
Arguments TypeError msg%_string.

(** [v.name] for a value that came out of [JSON.parse]: reading a property
    of [undefined] or [null] throws, every other value answers, with
    [undefined] when it has no such property. *)
Definition get_prop (v : Value) (name : string) : JsError + Value :=
  match v with
  | VUndefined =>
      inl {| message := js "Cannot read properties of undefined (reading '"
                        ++ js name ++ js "')";
             response := None |}
  | VNull =>
      inl {| message := js "Cannot read properties of null (reading '"
                        ++ js name ++ js "')";
             response := None |}
  | VObj props => inr (assoc (js name) props)
  | _ => inr VUndefined
  end.
Arguments get_prop v name%_string.

(** [v?.name]. *)
Definition get_prop_opt (v : Value) (name : string) : Value :=
  match get_prop v name with
  | inl _ => VUndefined
  | inr x => x
  end.
Arguments get_prop_opt v name%_string.

(** What Node throws for [Buffer.from(undefined)]. *)
Definition ERR_INVALID_ARG_TYPE : JsError :=
  TypeError "The first argument must be of type string or an instance of Buffer, ArrayBuffer, or Array or an Array-like Object. Received undefined".

Definition Buffer_from (prompt : option jsstring) : JsError + list byte :=
  match prompt with
  | Some s => inr (utf8_encode s)
  | None => inl ERR_INVALID_ARG_TYPE
  end.

(* ===================================================================== *)
(** ** [String.prototype.replace] with a global two-character pattern,
       and [String.prototype.trim] *)
(* ===================================================================== *)

(** [s.replace(/ab/g, r)] for the two code units [a] and [b]: the matches
    are found from left to right and do not overlap. *)
Fixpoint replace_pair (a b : N) (r : jsstring) (s : jsstring) : jsstring :=
  match s with
  | [] => []
  | x :: t =>
      match t with
      | y :: t' =>
          if (x =? a) && (y =? b)
          then r ++ replace_pair a b r t'
          else x :: replace_pair a b r t
      | [] => [x]
      end
  end.

(** White space and line terminators, the code units [trim] removes. *)
Definition is_whitespace (u : N) : bool :=
  bool_decide (u ∈ [0x9; 0xA; 0xB; 0xC; 0xD; 0x20; 0xA0; 0x1680;
                    0x2028; 0x2029; 0x202F; 0x205F; 0x3000; 0xFEFF])
  || ((0x2000 <=? u) && (u <=? 0x200A)).

Fixpoint trimStart (s : jsstring) : jsstring :=
  match s with
  | [] => []
  | x :: t => if is_whitespace x then trimStart t else s
  end.

Fixpoint trimEnd (s : jsstring) : jsstring :=
  match s with
  | [] => []
  | x :: t =>
      match trimEnd t with
      | [] => if is_whitespace x then [] else [x]
      | t' => x :: t'
      end
  end.

Definition trim (s : jsstring) : jsstring := trimEnd (trimStart s).

Definition backslash : N := 92.
Definition letter_n : N := 110.
Definition letter_t : N := 116.
Definition double_quote : N := 34.
Definition newline : N := 10.
Definition tab : N := 9.

(** The chain of lines 127-131 applied to a string. *)
Definition cleanCode (code : jsstring) : jsstring :=
  trim
    (replace_pair backslash double_quote [double_quote]
       (replace_pair backslash letter_t [tab]
          (replace_pair backslash letter_n [newline] code))).

(** Calling [.replace] on [result.code]: only a string has the method. *)
Definition as_replace_receiver (code : Value) : JsError + jsstring :=
  match code with
  | VStr s => inr s
  | VUndefined => inl (TypeError "Cannot read properties of undefined (reading 'replace')")
  | VNull => inl (TypeError "Cannot read properties of null (reading 'replace')")
  | _ => inl (TypeError "result.code.replace is not a function")
  end.

(* ===================================================================== *)
(** ** [CONFIG] *)
(* ===================================================================== *)

Record ModelInfo := { maxTokens : N; cost : N }.

Definition CONFIG_languages : list jsstring :=
  [js "JavaScript"; js "C#"; js "C++"; js "Java"; js "Ruby"; js "Go";
   js "Python"; js "Custom"].

Definition CONFIG_models : list (jsstring * ModelInfo) :=
  [(js "gpt-4o-mini", {| maxTokens := 128000; cost := 1 |});
   (js "gpt-4o", {| maxTokens := 128000; cost := 2 |});
   (js "gpt-4-turbo", {| maxTokens := 128000; cost := 3 |});
   (js "claude-3-opus", {| maxTokens := 200000; cost := 5 |});
   (js "claude-3-5-sonnet", {| maxTokens := 200000; cost := 4 |})].

Definition CONFIG_apiEndpoint : jsstring :=
  js "https://best-ai-code-generator.toolzflow.app/api/chat/public".

Definition CONFIG_cacheTTL : N := 3600.

(** [Object.keys(CONFIG.models)]. *)
Definition Object_keys (o : list (jsstring * ModelInfo)) : list jsstring :=
  map fst o.

(** [CONFIG.models] is an object literal, so a property read that finds no
    own property goes on to [Object.prototype], whose members are all
    truthy (functions, and the prototype object itself for [__proto__]). *)
Definition Object_prototype : list jsstring :=
  [js "constructor"; js "__defineGetter__"; js "__defineSetter__";
   js "hasOwnProperty"; js "__lookupGetter__"; js "__lookupSetter__";
   js "isPrototypeOf"; js "propertyIsEnumerable"; js "toString";
   js "valueOf"; js "__proto__"; js "toLocaleString"].

Inductive Property :=
| OwnProperty (info : ModelInfo)
| InheritedProperty
| NoProperty.

Fixpoint own_property (name : jsstring) (o : list (jsstring * ModelInfo))
  : option ModelInfo :=
  match o with
  | [] => None
  | (k, info) :: rest =>
      if jsstring_eqb k name then Some info else own_property name rest
  end.

(** [CONFIG.models[model]]. *)
Definition models_get (model : jsstring) : Property :=
  match own_property model CONFIG_models with
  | Some info => OwnProperty info
  | None =>
      if includes Object_prototype model then InheritedProperty
      else NoProperty
  end.

Definition property_truthy (p : Property) : bool :=
  match p with
  | NoProperty => false
  | _ => true
  end.

(** [CONFIG.models[model].maxTokens]; [None] is [undefined]. *)
Definition property_maxTokens (p : Property) : option N :=
  match p with
  | OwnProperty info => Some (maxTokens info)
  | _ => None
  end.

(* ===================================================================== *)
(** ** The world: the Redis store, the clock, the upstream service *)
(* ===================================================================== *)

(** An entry holds its text as [get] reads it back. *)
Record Entry := { value : jsstring; expiresAt : N }.

(** The clock counts milliseconds. *)
Record World := { redis : gmap jsstring Entry; clock : N }.

(** What [axios.post] sends, as far as it varies with the request: the
    other members of the posted body and the headers are literals, apart
    from the fresh [X-Request-ID]. *)
Record UpstreamRequest := {
  url : jsstring;
  chat_model : jsstring;
  contextLength : option N;
  system_content : jsstring;
  user_content : Value;
  timeout : N
}.

(** How the exchange with the upstream service ends, as axios sees it:
    the timeout of the request fires; no response arrives for another
    reason (refused or reset connection, DNS, too many redirects), with
    the text of that error; or a final response arrives, redirects
    followed. *)
Inductive Answer :=
| TimedOut
| NoResponse (msg : jsstring)
| Final (r : HttpResponse).

(** [elapsed] is the time the exchange took. *)
Record UpstreamReply := { elapsed : N; answer : Answer }.

(** The collaborators of one handler run. *)
Record Env := {
  redis_get_fault : option JsError;
  redis_set_fault : option JsError;
  upstream : UpstreamRequest -> UpstreamReply
}.

Inductive Event :=
| EvGet (key : jsstring)
| EvSetEx (key : jsstring) (seconds : N) (v : jsstring)
| EvPost (req : UpstreamRequest).

(** A computation that may throw, reads and writes the world and records
    the calls it makes to the cache and to the upstream service. *)
Definition M (A : Type) : Type :=
  World -> (JsError + A) * World * list Event.

Definition ret {A} (a : A) : M A := fun w => (inr a, w, []).

Definition throw {A} (e : JsError) : M A := fun w => (inl e, w, []).

Definition bind {A B} (m : M A) (k : A -> M B) : M B := fun w =>
  match m w with
  | (inl e, w1, tr) => (inl e, w1, tr)
  | (inr a, w1, tr) =>
      match k a w1 with
      | (r, w2, tr') => (r, w2, tr ++ tr')
      end
  end.

Notation "x <- m ;; k" := (bind m (fun x => k))
  (at level 100, m at next level, right associativity).
Notation "m ;;; k" := (bind m (fun _ => k))
  (at level 100, right associativity).

Definition lift {A} (r : JsError + A) : M A :=
  match r with
  | inl e => throw e
  | inr a => ret a
  end.

(** [try { m } catch (error) { h error }] where the handler does not throw. *)
Definition try_catch {A} (m : M A) (h : JsError -> A)
  : World -> A * World * list Event := fun w =>
  match m w with
  | (inl e, w1, tr) => (h e, w1, tr)
  | (inr a, w1, tr) => (a, w1, tr)
  end.

(** [redisClient.get(key)]: the value of a live entry, or [null]. *)
Definition redis_lookup (w : World) (key : jsstring) : Value :=
  match redis w !! toWellFormed key with
  | Some e => if clock w <? expiresAt e then VStr (value e) else VNull
  | None => VNull
  end.

Definition redisClient_get (env : Env) (key : jsstring) : M Value := fun w =>
  match redis_get_fault env with
  | Some e => (inl e, w, [EvGet key])
  | None => (inr (redis_lookup w key), w, [EvGet key])
  end.

(** [redisClient.setEx(key, seconds, v)]: overwrites the entry and restarts
    its expiry. *)
Definition redisClient_setEx (env : Env) (key : jsstring) (seconds : N)
    (v : jsstring) : M unit := fun w =>
  match redis_set_fault env with
  | Some e => (inl e, w, [EvSetEx key seconds v])
  | None =>
      (inr tt,
       {| redis := <[toWellFormed key :=
                       {| value := toWellFormed v;
                          expiresAt := clock w + seconds * 1000 |}]>
                     (redis w);
          clock := clock w |},
       [EvSetEx key seconds v])
  end.

(** [axios.post(url, body, {timeout})]: rejects when the timeout fires,
    when no response arrives, and when the status of the final response
    is outside 2xx; only the last rejection carries [error.response]. *)
Definition axios_post (env : Env) (req : UpstreamRequest) : M HttpResponse :=
  fun w =>
  let reply := upstream env req in
  let w1 := {| redis := redis w; clock := clock w + elapsed reply |} in
  match answer reply with
  | TimedOut =>
      (inl {| message := js "timeout of " ++ decimal (timeout req)
                         ++ js "ms exceeded";
              response := None |},
       w1, [EvPost req])
  | NoResponse msg =>
      (inl {| message := msg; response := None |}, w1, [EvPost req])
  | Final r =>
      if (200 <=? status r) && (status r <? 300)
      then (inr r, w1, [EvPost req])
      else
        (inl {| message := js "Request failed with status code "
                           ++ decimal (status r);
                response := Some r |},
         w1, [EvPost req])
  end.

(* ===================================================================== *)
(** ** [POST /api/generate] *)
(* ===================================================================== *)

(** [req.body] after destructuring, for a body whose [prompt], [language]
    and [model] are JSON strings or absent.  Other JSON values are not
    modelled (an array as [model], for one, is turned into a string by
    the property read of line 54 and by the template of line 61). *)
Record Request := {
  prompt : option jsstring;
  language : option jsstring;
  model : option jsstring
}.

Record Response := { http_status : N; body : list (string * Value) }.

Definition is_undefined (v : Value) : bool :=
  match v with
  | VUndefined => true
  | _ => false
  end.

(** [res.status(code).json(obj)]: a member whose value is [undefined] is
    not serialised. *)
Definition res_status_json (code : N) (obj : list (string * Value))
  : Response :=
  {| http_status := code;
     body := List.filter (fun p => negb (is_undefined (snd p))) obj |}.

(** [res.json(obj)]. *)
Definition res_json (obj : list (string * Value)) : Response :=
  res_status_json 200 obj.

(** [a || b]. *)
Definition or_else (a b : Value) : Value := if truthy a then a else b.

Definition cacheKey (model language : jsstring) (buf : list byte)
  : jsstring :=
  js "codegen:" ++ model ++ js ":" ++ language ++ js ":" ++ base64 buf.

Definition of_prompt (prompt : option jsstring) : Value :=
  match prompt with
  | Some s => VStr s
  | None => VUndefined
  end.

Definition finalPrompt (language : jsstring) (prompt : option jsstring)
  : Value :=
  if jsstring_eqb language (js "Custom")
  then of_prompt prompt
  else VStr (js "Write " ++ language ++ js " code for: "
             ++ ToString (of_prompt prompt)
             ++ [newline; newline]
             ++ js "Include comments and error handling.").

Definition upstream_request (model language : jsstring)
    (prompt : option jsstring) : UpstreamRequest :=
  {| url := CONFIG_apiEndpoint;
     chat_model := model;
     contextLength := property_maxTokens (models_get model);
     system_content :=
       js "You are an expert " ++ language
       ++ js " developer. Generate clean, efficient code with best practices.";
     user_content := finalPrompt language prompt;
     timeout := 30000 |}.

Definition hit_response (cached : Value) : Response :=
  res_json [("status", VBool true); ("code", cached);
            ("cached", VBool true)]%string.

Definition miss_response (clean : jsstring) (explanation : Value)
    (model language : jsstring) : Response :=
  res_json [("status", VBool true);
            ("code", or_else (VStr clean) (VStr (js "No code generated.")));
            ("explanation", explanation);
            ("model", VStr model);
            ("language", VStr language);
            ("cached", VBool false)]%string.

(** [language = 'JavaScript'] and [model = 'gpt-4o-mini'] in the
    destructuring pattern: the default stands in for an absent member. *)
Definition language_of (req : Request) : jsstring :=
  default (js "JavaScript") (language req).

Definition model_of (req : Request) : jsstring :=
  default (js "gpt-4o-mini") (model req).

Definition unsupported_language_response : Response :=
  res_status_json 400
    [("status", VBool false);
     ("error", VStr (js "Unsupported language. Available: "
                     ++ join (js ", ") CONFIG_languages))]%string.

Definition unsupported_model_response : Response :=
  res_status_json 400
    [("status", VBool false);
     ("error", VStr (js "Unsupported model. Available: "
                     ++ join (js ", ") (Object_keys CONFIG_models)))]%string.

(** The body of the [try] block. *)
Definition generate (env : Env) (req : Request) : M Response :=
  let language := language_of req in
  let model := model_of req in
  if negb (includes CONFIG_languages language) then
    ret unsupported_language_response
  else if negb (property_truthy (models_get model)) then
    ret unsupported_model_response
  else
    buf <- lift (Buffer_from (prompt req)) ;;
    let key := cacheKey model language buf in
    cached <- redisClient_get env key ;;
    if truthy cached then ret (hit_response cached)
    else
      reply <- axios_post env (upstream_request model language (prompt req)) ;;
      let result := data reply in
      code <- lift (get_prop result "code") ;;
      raw <- lift (as_replace_receiver code) ;;
      let clean := cleanCode raw in
      (if truthy (VStr clean)
       then redisClient_setEx env key CONFIG_cacheTTL clean
       else ret tt) ;;;
      explanation <- lift (get_prop result "explanation") ;;
      ret (miss_response clean explanation model language).

(** [error.response?.data?.message]. *)
Definition response_message (error : JsError) : Value :=
  match response error with
  | Some r => get_prop_opt (data r) "message"
  | None => VUndefined
  end.

(** [!error.response || error.response.status >= 500]. *)
Definition retryable (error : JsError) : bool :=
  match response error with
  | None => true
  | Some r => 500 <=? status r
  end.

(** The [catch] block. *)
Definition on_error (error : JsError) : Response :=
  res_status_json 500
    [("status", VBool false);
     ("error", VStr (js "Request failed: "
                     ++ ToString (or_else (response_message error)
                                          (VStr (message error)))));
     ("retryable", VBool (retryable error))]%string.

(** The route handler: the response sent, the world left behind and the
    calls made. *)
Definition handler (env : Env) (req : Request)
  : World -> Response * World * list Event :=
  try_catch (generate env req) on_error.

(** Later requests are served after some time has gone by. *)
Definition tick (d : N) (w : World) : World :=
  {| redis := redis w; clock := clock w + d |}.

Definition field (name : string) (r : Response) : option Value :=
  snd <$> List.find (fun p => String.eqb (fst p) name) (body r).

Definition posted (e : Event) : bool :=
  match e with
  | EvPost _ => true
  | _ => false
  end.

Definition touched_cache (e : Event) : bool :=
  match e with
  | EvGet _ | EvSetEx _ _ _ => true
  | EvPost _ => false
  end.

Definition wrote_cache (e : Event) : bool :=
  match e with
  | EvSetEx _ _ _ => true
  | _ => false
  end.

(* ===================================================================== *)
(** ** The paths through the handler *)
(* ===================================================================== *)

Definition key_of (req : Request) (p : jsstring) : jsstring :=
  cacheKey (model_of req) (language_of req) (utf8_encode p).

Definition request_of (req : Request) : UpstreamRequest :=
  upstream_request (model_of req) (language_of req) (prompt req).

(** Both checks of lines 47-59 let the request through. *)
Definition validated (req : Request) : Prop :=
  includes CONFIG_languages (language_of req) = true
  /\ property_truthy (models_get (model_of req)) = true.

(** [result.code.replace], up to the receiver of the first [replace]. *)
Definition code_text (result : Value) : JsError + jsstring :=
  match get_prop result "code" with
  | inl e => inl e
  | inr code => as_replace_receiver code
  end.

Definition store (key : jsstring) (v : jsstring) (w : World) : World :=
  {| redis := <[toWellFormed key :=
                  {| value := toWellFormed v;
                     expiresAt := clock w + CONFIG_cacheTTL * 1000 |}]>
                (redis w);
     clock := clock w |}.

(** Every run of the handler follows one of these paths. *)
Inductive Run (env : Env) (req : Request) (w : World)
  : Response * World * list Event -> Prop :=
| run_bad_language :
    includes CONFIG_languages (language_of req) = false ->
    Run env req w (unsupported_language_response, w, [])
| run_bad_model :
    includes CONFIG_languages (language_of req) = true ->
    property_truthy (models_get (model_of req)) = false ->
    Run env req w (unsupported_model_response, w, [])
| run_no_prompt e :
    validated req ->
    prompt req = None ->
    Buffer_from None = inl e ->
    Run env req w (on_error e, w, [])
| run_get_failed p e :
    validated req ->
    prompt req = Some p ->
    redis_get_fault env = Some e ->
    Run env req w (on_error e, w, [EvGet (key_of req p)])
| run_hit p :
    validated req ->
    prompt req = Some p ->
    redis_get_fault env = None ->
    truthy (redis_lookup w (key_of req p)) = true ->
    Run env req w
      (hit_response (redis_lookup w (key_of req p)), w,
       [EvGet (key_of req p)])
| run_post_failed p e w1 tr :
    validated req ->
    prompt req = Some p ->
    redis_get_fault env = None ->
    truthy (redis_lookup w (key_of req p)) = false ->
    axios_post env (request_of req) w = (inl e, w1, tr) ->
    Run env req w (on_error e, w1, EvGet (key_of req p) :: tr)
| run_malformed p reply e w1 tr :
    validated req ->
    prompt req = Some p ->
    redis_get_fault env = None ->
    truthy (redis_lookup w (key_of req p)) = false ->
    axios_post env (request_of req) w = (inr reply, w1, tr) ->
    code_text (data reply) = inl e ->
    Run env req w (on_error e, w1, EvGet (key_of req p) :: tr)
| run_set_failed p reply raw e w1 tr :
    validated req ->
    prompt req = Some p ->
    redis_get_fault env = None ->
    truthy (redis_lookup w (key_of req p)) = false ->
    axios_post env (request_of req) w = (inr reply, w1, tr) ->
    code_text (data reply) = inr raw ->
    cleanCode raw <> [] ->
    redis_set_fault env = Some e ->
    Run env req w
      (on_error e, w1,
       EvGet (key_of req p)
       :: tr ++ [EvSetEx (key_of req p) CONFIG_cacheTTL (cleanCode raw)])
| run_stored p reply raw w1 tr :
    validated req ->
    prompt req = Some p ->
    redis_get_fault env = None ->
    truthy (redis_lookup w (key_of req p)) = false ->
    axios_post env (request_of req) w = (inr reply, w1, tr) ->
    code_text (data reply) = inr raw ->
    cleanCode raw <> [] ->
    redis_set_fault env = None ->
    Run env req w
      (miss_response (cleanCode raw)
         (get_prop_opt (data reply) "explanation")
         (model_of req) (language_of req),
       store (key_of req p) (cleanCode raw) w1,
       EvGet (key_of req p)
       :: tr ++ [EvSetEx (key_of req p) CONFIG_cacheTTL (cleanCode raw)])
| run_empty p reply raw w1 tr :
    validated req ->
    prompt req = Some p ->
    redis_get_fault env = None ->
    truthy (redis_lookup w (key_of req p)) = false ->
    axios_post env (request_of req) w = (inr reply, w1, tr) ->
    code_text (data reply) = inr raw ->
    cleanCode raw = [] ->
    Run env req w
      (miss_response [] (get_prop_opt (data reply) "explanation")
         (model_of req) (language_of req),
       w1, EvGet (key_of req p) :: tr).

(* ===================================================================== *)
(** ** Vocabulary of the statements *)
(* ===================================================================== *)

(** The two fixed sets the error messages of lines 50 and 57 list. *)
Definition supported_language (l : jsstring) : Prop := l ∈ CONFIG_languages.

Definition supported_model (m : jsstring) : Prop :=
  m ∈ Object_keys CONFIG_models.

Definition colon : N := 58.

(** The code units [a], [b] stand next to each other somewhere in [s]. *)
Fixpoint occurs (a b : N) (s : jsstring) : bool :=
  match s with
  | [] => false
  | x :: t =>
      match t with
      | [] => false
      | y :: _ => ((x =? a) && (y =? b)) || occurs a b t
      end
  end.

(** A string without a lone surrogate, every code unit below 2^16. *)
Fixpoint well_formed (s : jsstring) : bool :=
  match s with
  | [] => true
  | u :: t =>
      if is_high_surrogate u then
        match t with
        | v :: t' => is_low_surrogate v && well_formed t'
        | [] => false
        end
      else negb (is_low_surrogate u) && (u <? 0x10000) && well_formed t
  end.

(** The response is a 400 with [status: false] and an [error] text, and
    neither the cache nor the upstream service was called. *)
Definition rejected_before_io (out : Response * World * list Event) : Prop :=
  http_status out.1.1 = 400
  /\ field "status" out.1.1 = Some (VBool false)
  /\ is_Some (field "error" out.1.1)
  /\ out.2 = [].

(** The exchange ends after 1.2 s with a response of status 200. *)
Definition replies (result : Value) : UpstreamRequest -> UpstreamReply :=
  fun _ => {| elapsed := 1200;
              answer := Final {| status := 200; data := result |} |}.

Definition healthy (result : Value) : Env :=
  {| redis_get_fault := None; redis_set_fault := None;
     upstream := replies result |}.

Definition generated (code : jsstring) : Value :=
  VObj [(js "code", VStr code); (js "explanation", VStr (js "adds"))].

Definition empty_world : World := {| redis := ∅; clock := 0 |}.

Definition sample_request : Request :=
  {| prompt := Some (js "sum of a list"); language := Some (js "Python");
     model := None |}.

Definition redis_down : JsError :=
  {| message := js "The client is closed"; response := None |}.

(** A model name that [Object.prototype] knows. *)
Definition inherited_model_request : Request :=
  {| prompt := Some (js "sum of a list"); language := None;
     model := Some (js "constructor") |}.


Definition empty_prompt_request : Request :=
  {| prompt := Some []; language := None; model := None |}.

(** The cache is unreachable for reads. *)
Definition cache_down : Env :=
  {| redis_get_fault := Some redis_down; redis_set_fault := None;
     upstream := replies (generated (js "print(1)")) |}.

(** The 500 response of the [catch] block with the given [retryable]. *)
Definition failed_with (flag : bool) (r : Response) : Prop :=
  http_status r = 500
  /\ field "status" r = Some (VBool false)
  /\ field "retryable" r = Some (VBool flag).

(** A 200 reply whose body has no [code] member. *)
Definition without_code : Value :=
  VObj [(js "explanation", VStr (js "nothing to show"))].

(** The world after [sample_request] was served once from upstream. *)
Definition warm_world : World :=
  (handler (healthy (generated (js "print(1)"))) sample_request
     empty_world).1.2.

Definition cache_readonly : Env :=
  {| redis_get_fault := None; redis_set_fault := Some redis_down;
     upstream := replies (generated (js "print(1)")) |}.

(** A reply whose code is nothing but escaped and plain white space. *)
Definition blank_code : jsstring := js " \n\t ".

(** The raw text of the normalization example: [line1\nline2\t\"quoted\"]
    with its backslashes. *)
Definition escaped_sample : jsstring :=
  js "line1\nline2\t\" ++ [double_quote] ++ js "quoted\" ++ [double_quote].

(* ===================================================================== *)
(** ** Vocabulary of the further properties *)
(* ===================================================================== *)

(** No entry of the cache holds the empty text. *)
Definition no_empty_entry (w : World) : Prop :=
  map_Forall (fun _ e => value e <> []) (redis w).

(** The text after the three replacements, before [trim]. *)
Definition unescaped (code : jsstring) : jsstring :=
  replace_pair backslash double_quote [double_quote]
    (replace_pair backslash letter_t [tab]
       (replace_pair backslash letter_n [newline] code)).

(** The upstream service turns the request down with a 429. *)
Definition rate_limited : Env :=
  {| redis_get_fault := None; redis_set_fault := None;
     upstream := fun _ =>
       {| elapsed := 300;
          answer := Final {| status := 429;
                            data := VObj [(js "message",
                                           VStr (js "Too many requests"))] |} |} |}.

(** [h], e with acute accent and the euro sign. *)
Definition accented : jsstring := [0x68; 0xE9; 0x20AC].

(** Neither an array nor an object. *)
Definition is_primitive (v : Value) : bool :=
  match v with
  | VArr _ | VObj _ => false
  | _ => true
  end.

(** The exchange ends with a 304. *)
Definition not_modified : Env :=
  {| redis_get_fault := None; redis_set_fault := None;
     upstream := fun _ =>
       {| elapsed := 80;
          answer := Final {| status := 304; data := VStr [] |} |} |}.

(* ===================================================================== *)
(** * Properties *)
(* ===================================================================== *)

(** ** Base64 is injective *)

Ltac euclid := zify; Z.to_euclidean_division_equations; lia.


Lemma base64_alphabet_length : length base64_alphabet = 64%nat.
Proof. reflexivity. Qed.











Lemma index0 a : a <= 255 -> a / 4 < 64.
Proof. intros. euclid. Qed.

Lemma index1 a b : b <= 255 -> a mod 4 * 16 + b / 16 < 64.
Proof. intros. euclid. Qed.

Lemma index2 b c : c <= 255 -> b mod 16 * 4 + c / 64 < 64.
Proof. intros. euclid. Qed.

Lemma index3 c : c mod 64 < 64.
Proof. euclid. Qed.

Lemma index1_last a : a mod 4 * 16 < 64.
Proof. euclid. Qed.

Lemma index2_last b : b mod 16 * 4 < 64.
Proof. euclid. Qed.


Ltac index_bound :=
  first [ apply index0, Byte.to_N_bounded
        | apply index1, Byte.to_N_bounded
        | apply index2, Byte.to_N_bounded
        | apply index3 | apply index1_last | apply index2_last ].




(** ** The cache key *)





(** ** UTF-8 is injective on well-formed strings *)

Lemma to_N_byte_of n : n <= 255 -> Byte.to_N (byte_of n) = n.
Proof.
  intros Hn. unfold byte_of.
  destruct (Byte.of_N n) as [b|] eqn:E; simpl.
  - by apply Byte.to_of_N.
  - apply Byte.of_N_None_iff in E. lia.
Qed.

Lemma utf8_units_bytes c :
  c < 0x110000 -> Forall (fun n => n <= 255) (utf8_units c).
Proof.
  intros Hc. unfold utf8_units.
  repeat case_match; repeat constructor; euclid.
Qed.

Lemma utf8_units_values c :
  c < 0x110000 -> map Byte.to_N (utf8_of_code_point c) = utf8_units c.
Proof.
  intros Hc. unfold utf8_of_code_point.
  induction (utf8_units_bytes c Hc) as [|n l Hn _ IH]; simpl; [done|].
  by rewrite to_N_byte_of, IH.
Qed.








(** ** Replacement and trimming *)

Lemma occurs_cons2 p q x y t :
  occurs p q (x :: y :: t) = ((x =? p) && (y =? q)) || occurs p q (y :: t).
Proof. reflexivity. Qed.

Lemma occurs_cons p q x t : occurs p q t = true -> occurs p q (x :: t) = true.
Proof.
  destruct t as [|y t]; [done|]. intros H.
  rewrite occurs_cons2, H. apply orb_true_r.
Qed.

Lemma replace_pair_cons2 a b r x y t :
  replace_pair a b r (x :: y :: t)
  = if (x =? a) && (y =? b) then r ++ replace_pair a b r t
    else x :: replace_pair a b r (y :: t).
Proof. reflexivity. Qed.

(** The output of a replacement starts with the replacement character or
    with the first character of the input. *)
Lemma replace_pair_head a b c x t :
  exists z r, replace_pair a b [c] (x :: t) = z :: r /\ (z = c \/ z = x).
Proof.
  destruct t as [|y t]; [by exists x, []; auto|].
  rewrite replace_pair_cons2. case_match; eauto.
Qed.

Lemma occurs_replace_pair a b c p q s :
  c <> p -> c <> q ->
  occurs p q (replace_pair a b [c] s) = true ->
  occurs p q s = true /\ (p = a -> q = b -> False).
Proof.
  intros Hp Hq.
  induction s as [s IH] using (induction_ltof1 _ (@length N)).
  unfold ltof in IH.
  destruct s as [|x [|y t]]; [done..|].
  rewrite replace_pair_cons2.
  destruct ((x =? a) && (y =? b)) eqn:Hm.
  - cbn [app].
    destruct (replace_pair a b [c] t) as [|z r] eqn:Hr; [done|].
    rewrite occurs_cons2.
    intros [H|H]%orb_true_iff; [lia|].
    rewrite <- Hr in H. apply IH in H as [H Hne]; [|simpl; lia].
    split; [|done]. by do 2 apply occurs_cons.
  - destruct (replace_pair_head a b c y t) as (z & r & Hr & Hz).
    rewrite Hr, occurs_cons2.
    intros [H|H]%orb_true_iff.
    + assert (z = y) as -> by (destruct Hz; [lia|done]).
      split; [|lia]. rewrite occurs_cons2, H. done.
    + rewrite <- Hr in H. apply IH in H as [H Hne]; [|simpl; lia].
      split; [|done]. by apply occurs_cons.
Qed.

Lemma replace_pair_no_residual a b c s :
  c <> a -> c <> b -> occurs a b (replace_pair a b [c] s) = false.
Proof.
  intros Ha Hb. apply not_true_is_false. intros H.
  apply occurs_replace_pair in H as [_ H]; auto.
Qed.

Lemma replace_pair_no_new a b c p q s :
  c <> p -> c <> q ->
  occurs p q s = false -> occurs p q (replace_pair a b [c] s) = false.
Proof.
  intros Hp Hq Hs. apply not_true_is_false. intros H.
  apply occurs_replace_pair in H as [H _]; congruence.
Qed.

Lemma trimStart_suffix s : exists pre,
  s = pre ++ trimStart s /\ Forall (fun u => is_whitespace u = true) pre.
Proof.
  induction s as [|x s IH]; [by exists []; split; [|constructor]|]. destruct IH as (pre & E & F).
  cbn [trimStart]. destruct (is_whitespace x) eqn:Hx.
  - exists (x :: pre). split; [by rewrite <- app_comm_cons, <- E | by constructor].
  - exists []. split; [done|constructor].
Qed.

Lemma trimEnd_prefix s : exists post,
  s = trimEnd s ++ post /\ Forall (fun u => is_whitespace u = true) post.
Proof.
  induction s as [|x s IH]; [by exists []; split; [|constructor]|]. destruct IH as (post & E & F).
  cbn [trimEnd]. destruct (trimEnd s) as [|z r] eqn:Ht.
  - destruct (is_whitespace x) eqn:Hx.
    + exists (x :: post). simpl in E. subst post. split; [done | by constructor].
    + exists post. simpl in E. by subst post.
  - exists post. split; [|done]. by rewrite <- app_comm_cons, <- E.
Qed.

Lemma occurs_app_l p q s t : occurs p q s = true -> occurs p q (s ++ t) = true.
Proof.
  induction s as [|x [|y s] IH]; [done..|].
  rewrite <- !app_comm_cons, !occurs_cons2.
  intros [H|H]%orb_true_iff; apply orb_true_iff; [by left|right].
  by apply IH.
Qed.

Lemma occurs_app_r p q s t : occurs p q t = true -> occurs p q (s ++ t) = true.
Proof.
  intros H. induction s as [|x s IH]; [done|].
  rewrite <- app_comm_cons. by apply occurs_cons.
Qed.

Lemma occurs_trim p q s : occurs p q s = false -> occurs p q (trim s) = false.
Proof.
  intros Hs. apply not_true_is_false. intros H. unfold trim in H.
  destruct (trimStart_suffix s) as (pre & E & _).
  destruct (trimEnd_prefix (trimStart s)) as (post & E' & _).
  rewrite E, E' in Hs.
  by rewrite (occurs_app_r _ _ _ _ (occurs_app_l _ _ _ post H)) in Hs.
Qed.

Lemma trimStart_head s u :
  head (trimStart s) = Some u -> is_whitespace u = false.
Proof.
  induction s as [|x s IH]; [done|]. cbn [trimStart].
  destruct (is_whitespace x) eqn:Hx; [done|]. simpl. congruence.
Qed.

Lemma trimEnd_head s : trimEnd s <> [] -> head (trimEnd s) = head s.
Proof.
  destruct s as [|x s]; [done|]. cbn [trimEnd].
  destruct (trimEnd s); [|done]. by destruct (is_whitespace x).
Qed.

Lemma trimEnd_last s u :
  last (trimEnd s) = Some u -> is_whitespace u = false.
Proof.
  induction s as [|x s IH]; [done|]. cbn [trimEnd].
  destruct (trimEnd s) as [|z r] eqn:Ht.
  - destruct (is_whitespace x) eqn:Hx; [done|]. simpl. congruence.
  - rewrite last_cons. destruct (last (z :: r)) as [v|] eqn:Hl.
    + intros [= ->]. by apply IH.
    + by apply last_None in Hl.
Qed.

(** ** The handler follows one of its paths *)

Lemma get_prop_explanation result code :
  get_prop result "code" = inr code ->
  get_prop result "explanation" = inr (get_prop_opt result "explanation").
Proof.
  unfold get_prop_opt. destruct result; simpl; intros; done.
Qed.

Ltac step := cbv beta iota zeta.

Lemma handler_run env req w : Run env req w (handler env req w).
Proof.
  unfold handler, try_catch, generate.
  destruct (includes CONFIG_languages (language_of req)) eqn:Hl; cbn [negb];
    [ | by apply run_bad_language].
  destruct (property_truthy (models_get (model_of req))) eqn:Hm; cbn [negb];
    [ | by apply run_bad_model].
  assert (Hv : validated req) by done.
  unfold bind, lift, ret, throw.
  destruct (prompt req) as [p|] eqn:Hp; unfold Buffer_from; step.
  2:{ by eapply run_no_prompt. }
  fold (key_of req p).
  unfold redisClient_get.
  destruct (redis_get_fault env) as [e|] eqn:Hg; step.
  { by apply run_get_failed. }
  destruct (truthy (redis_lookup w (key_of req p))) eqn:Hc; step.
  { by apply run_hit. }
  rewrite <- Hp. fold (request_of req).
  destruct (axios_post env (request_of req) w) as [[[e|reply] w1] tr] eqn:Ha;
    step.
  { by eapply run_post_failed. }
  destruct (code_text (data reply)) as [e|raw] eqn:Hcode.
  { unfold code_text in Hcode.
    destruct (get_prop (data reply) "code") as [e'|code] eqn:Hgp; step.
    - simplify_eq. rewrite app_nil_r.
      eapply run_malformed; eauto. unfold code_text. by rewrite Hgp.
    - rewrite Hcode. step. rewrite app_nil_r.
      eapply run_malformed; eauto. unfold code_text. by rewrite Hgp. }
  pose proof Hcode as Hcode'. unfold code_text in Hcode'.
  destruct (get_prop (data reply) "code") as [e'|code] eqn:Hgp; [done|].
  step. rewrite Hcode'. step.
  rewrite (get_prop_explanation _ _ Hgp).
  unfold truthy.
  destruct (decide (cleanCode raw = [])) as [He|He].
  - rewrite bool_decide_eq_true_2 by done. cbn [negb]. step. rewrite He.
    rewrite app_nil_r. by eapply run_empty.
  - rewrite bool_decide_eq_false_2 by done. cbn [negb].
    unfold redisClient_setEx.
    destruct (redis_set_fault env) as [e|] eqn:Hs; step.
    + by eapply run_set_failed.
    + cbn [app]. by eapply run_stored.
Qed.

Lemma axios_post_events env u w x w1 tr :
  axios_post env u w = (x, w1, tr) -> tr = [EvPost u] /\ redis w1 = redis w.
Proof.
  unfold axios_post. intros H.
  repeat case_match; by simplify_eq.
Qed.

Lemma axios_post_resolves env u w l r :
  upstream env u = {| elapsed := l; answer := Final r |} ->
  200 <= status r < 300 ->
  axios_post env u w
  = (inr r, {| redis := redis w; clock := clock w + l |}, [EvPost u]).
Proof.
  intros Hu Hs. unfold axios_post. rewrite Hu. cbn [elapsed answer].
  destruct (N.leb_spec 200 (status r)); [|lia].
  destruct (N.ltb_spec (status r) 300); [|lia]. done.
Qed.

(** The three ways [axios.post] rejects. *)
Lemma axios_post_rejects env u w e w1 tr :
  axios_post env u w = (inl e, w1, tr) ->
  (answer (upstream env u) = TimedOut /\ response e = None)
  \/ (exists msg,
        answer (upstream env u) = NoResponse msg /\ response e = None)
  \/ (exists r,
        answer (upstream env u) = Final r
        /\ response e = Some r
        /\ (status r < 200 \/ 300 <= status r)).
Proof.
  unfold axios_post. intros H.
  destruct (answer (upstream env u)) as [|msg|r] eqn:Ha.
  { left. by simplify_eq. }
  { right. left. exists msg. by simplify_eq. }
  right. right. exists r.
  destruct (N.leb_spec 200 (status r)), (N.ltb_spec (status r) 300);
    simplify_eq/=; repeat split; auto; lia.
Qed.

(** ** The members of the responses *)

Lemma truthy_defined v : truthy v = true -> is_undefined v = false.
Proof. by destruct v. Qed.

Lemma hit_response_body v :
  truthy v = true ->
  hit_response v
  = {| http_status := 200;
       body := [("status", VBool true); ("code", v);
                ("cached", VBool true)]%string |}.
Proof.
  intros Hv. unfold hit_response, res_json, res_status_json. cbn.
  by rewrite (truthy_defined _ Hv).
Qed.

Lemma miss_response_fields clean explanation model language :
  let r := miss_response clean explanation model language in
  http_status r = 200
  /\ field "status" r = Some (VBool true)
  /\ field "code" r
     = Some (VStr (if bool_decide (clean = [])
                   then js "No code generated." else clean))
  /\ field "model" r = Some (VStr model)
  /\ field "language" r = Some (VStr language)
  /\ field "cached" r = Some (VBool false).
Proof.
  unfold miss_response, res_json, res_status_json, field, or_else, truthy.
  destruct (bool_decide (clean = [])), (is_undefined explanation) eqn:E;
    cbn; rewrite E; cbn; done.
Qed.

Lemma on_error_fields e :
  http_status (on_error e) = 500
  /\ field "status" (on_error e) = Some (VBool false)
  /\ field "retryable" (on_error e) = Some (VBool (retryable e))
  /\ field "cached" (on_error e) = None
  /\ field "error" (on_error e)
     = Some (VStr (js "Request failed: "
                   ++ ToString (or_else (response_message e)
                                        (VStr (message e))))).
Proof. done. Qed.

Lemma unsupported_language_rejected w :
  rejected_before_io (unsupported_language_response, w, []).
Proof. repeat split. by eexists. Qed.

Lemma unsupported_model_rejected w :
  rejected_before_io (unsupported_model_response, w, []).
Proof. repeat split. by eexists. Qed.

(** ** What decides the path *)

Ltac paths R :=
  inversion R; unfold validated in *; destruct_and?; simplify_eq;
  try congruence.

Lemma handler_rejects_language env req w :
  includes CONFIG_languages (language_of req) = false ->
  handler env req w = (unsupported_language_response, w, []).
Proof. intros H. pose proof (handler_run env req w) as R. paths R. Qed.

Lemma handler_rejects_model env req w :
  includes CONFIG_languages (language_of req) = true ->
  property_truthy (models_get (model_of req)) = false ->
  handler env req w = (unsupported_model_response, w, []).
Proof. intros Hl Hm. pose proof (handler_run env req w) as R. paths R. Qed.

Lemma handler_no_prompt env req w :
  validated req -> prompt req = None ->
  handler env req w = (on_error ERR_INVALID_ARG_TYPE, w, []).
Proof.
  intros Hv Hp. pose proof (handler_run env req w) as R. paths R.
  match goal with H : Buffer_from None = inl _ |- _ => injection H as <- end.
  done.
Qed.

Lemma handler_get_failed env req w p e :
  validated req -> prompt req = Some p ->
  redis_get_fault env = Some e ->
  handler env req w = (on_error e, w, [EvGet (key_of req p)]).
Proof.
  intros Hv Hp Hg. pose proof (handler_run env req w) as R. paths R.
Qed.

Lemma handler_hit env req w p :
  validated req -> prompt req = Some p ->
  redis_get_fault env = None ->
  truthy (redis_lookup w (key_of req p)) = true ->
  handler env req w
  = (hit_response (redis_lookup w (key_of req p)), w,
     [EvGet (key_of req p)]).
Proof.
  intros Hv Hp Hg Hc. pose proof (handler_run env req w) as R. paths R.
Qed.

Lemma handler_post_failed env req w p e w1 tr :
  validated req -> prompt req = Some p ->
  redis_get_fault env = None ->
  truthy (redis_lookup w (key_of req p)) = false ->
  axios_post env (request_of req) w = (inl e, w1, tr) ->
  handler env req w = (on_error e, w1, EvGet (key_of req p) :: tr).
Proof.
  intros Hv Hp Hg Hc Ha. pose proof (handler_run env req w) as R. paths R.
Qed.


Lemma handler_set_failed env req w p reply raw e w1 tr :
  validated req -> prompt req = Some p ->
  redis_get_fault env = None ->
  truthy (redis_lookup w (key_of req p)) = false ->
  axios_post env (request_of req) w = (inr reply, w1, tr) ->
  code_text (data reply) = inr raw ->
  cleanCode raw <> [] ->
  redis_set_fault env = Some e ->
  handler env req w
  = (on_error e, w1,
     EvGet (key_of req p)
     :: tr ++ [EvSetEx (key_of req p) CONFIG_cacheTTL (cleanCode raw)]).
Proof.
  intros Hv Hp Hg Hc Ha He Hn Hs.
  pose proof (handler_run env req w) as R. paths R.
Qed.

Lemma handler_stored env req w p reply raw w1 tr :
  validated req -> prompt req = Some p ->
  redis_get_fault env = None ->
  truthy (redis_lookup w (key_of req p)) = false ->
  axios_post env (request_of req) w = (inr reply, w1, tr) ->
  code_text (data reply) = inr raw ->
  cleanCode raw <> [] ->
  redis_set_fault env = None ->
  handler env req w
  = (miss_response (cleanCode raw)
       (get_prop_opt (data reply) "explanation")
       (model_of req) (language_of req),
     store (key_of req p) (cleanCode raw) w1,
     EvGet (key_of req p)
     :: tr ++ [EvSetEx (key_of req p) CONFIG_cacheTTL (cleanCode raw)]).
Proof.
  intros Hv Hp Hg Hc Ha He Hn Hs.
  pose proof (handler_run env req w) as R. paths R.
Qed.

Lemma handler_empty env req w p reply raw w1 tr :
  validated req -> prompt req = Some p ->
  redis_get_fault env = None ->
  truthy (redis_lookup w (key_of req p)) = false ->
  axios_post env (request_of req) w = (inr reply, w1, tr) ->
  code_text (data reply) = inr raw ->
  cleanCode raw = [] ->
  handler env req w
  = (miss_response [] (get_prop_opt (data reply) "explanation")
       (model_of req) (language_of req),
     w1, EvGet (key_of req p) :: tr).
Proof.
  intros Hv Hp Hg Hc Ha He Hn.
  pose proof (handler_run env req w) as R. paths R.
Qed.

(** ** The keys and texts that go through the cache client *)

Ltac by_computation := apply (bool_decide_unpack _); vm_compute; exact I.

Lemma includes_supported l :
  includes CONFIG_languages l = true <-> supported_language l.
Proof.
  unfold includes, supported_language. rewrite existsb_exists. split.
  - intros (x & Hx & E). apply bool_decide_eq_true in E. subst.
    by apply list_elem_of_In.
  - intros H. exists l. split; [by apply list_elem_of_In|].
    by apply bool_decide_eq_true.
Qed.

Lemma own_property_keys m o :
  is_Some (own_property m o) <-> m ∈ Object_keys o.
Proof.
  induction o as [|[k info] o IH]; cbn [own_property Object_keys map fst].
  - split; [by intros [? ?]|by intros ?%elem_of_nil].
  - unfold jsstring_eqb. case_bool_decide as E.
    + subst. split; [by left|by eexists].
    + rewrite IH, elem_of_cons. split; [by right|by intros [->|?]].
Qed.

Lemma own_property_supported m :
  is_Some (own_property m CONFIG_models) <-> supported_model m.
Proof. apply own_property_keys. Qed.

Lemma models_get_truthy_iff m :
  property_truthy (models_get m) = true
  <-> supported_model m \/ (m ∈ Object_prototype).
Proof.
  unfold models_get.
  destruct (own_property m CONFIG_models) as [info|] eqn:E.
  - split; [|done]. intros _. left. apply own_property_supported. by eexists.
  - assert (Hn : ~ supported_model m).
    { rewrite <- own_property_supported, E. by intros [? ?]. }
    destruct (includes Object_prototype m) eqn:Hi; cbn.
    + split; [|done]. intros _. right.
      unfold includes in Hi. apply existsb_exists in Hi as (x & Hx & Ex).
      apply bool_decide_eq_true in Ex. subst. by apply list_elem_of_In.
    + split; [done|]. intros [H|H]; [done|].
      apply not_true_iff_false in Hi. destruct Hi.
      unfold includes. apply existsb_exists. exists m.
      split; [by apply list_elem_of_In|by apply bool_decide_eq_true].
Qed.

Lemma base64_char_in_alphabet i : i < 64 -> base64_char i ∈ base64_alphabet.
Proof.
  intros Hi. unfold base64_char. apply list_elem_of_In, nth_In.
  rewrite base64_alphabet_length. lia.
Qed.

Lemma base64_alphabet_or_pad bs :
  Forall (fun c => c ∈ base64_alphabet \/ c = base64_pad) (base64 bs).
Proof.
  induction bs as [bs IH] using (induction_ltof1 _ (@length byte)).
  unfold ltof in IH.
  destruct bs as [|a [|b [|c rest]]]; cbn [base64];
    repeat apply Forall_cons_2; try apply Forall_nil_2;
    try (by right);
    try (left; apply base64_char_in_alphabet; index_bound).
  apply IH. simpl. lia.
Qed.

Lemma toWellFormed_ascii s :
  Forall (fun u => u < 0x80) s -> toWellFormed s = s.
Proof.
  induction 1 as [|u t Hu _ IH]; [done|].
  cbn [toWellFormed]. unfold is_high_surrogate, is_low_surrogate.
  destruct (N.leb_spec 0xD800 u); [lia|].
  destruct (N.leb_spec 0xDC00 u); [lia|]. cbn [andb]. by rewrite IH.
Qed.

Lemma toWellFormed_well_formed s :
  well_formed s = true -> toWellFormed s = s.
Proof.
  induction s as [s IH] using (induction_ltof1 _ (@length N)).
  unfold ltof in IH. destruct s as [|u t]; [done|].
  cbn [well_formed toWellFormed].
  destruct (is_high_surrogate u).
  - destruct t as [|v t']; [done|]. intros [Hv Ht]%andb_true_iff.
    rewrite Hv, IH; [done|simpl; lia|done].
  - intros [[Hl _]%andb_true_iff Ht]%andb_true_iff.
    apply negb_true_iff in Hl. rewrite Hl, IH; [done|simpl; lia|done].
Qed.

Lemma toWellFormed_nonempty s : s <> [] -> toWellFormed s <> [].
Proof.
  destruct s as [|u t]; [done|]. intros _. cbn [toWellFormed].
  by repeat case_match.
Qed.

(** [toWellFormed] is what a UTF-8 round trip makes of a string: it is
    well formed and has the bytes of the original. *)
Lemma toWellFormed_same_bytes s :
  utf8_encode (toWellFormed s) = utf8_encode s.
Proof.
  induction s as [s IH] using (induction_ltof1 _ (@length N)).
  unfold ltof in IH. destruct s as [|u t]; [done|].
  cbn [toWellFormed utf8_encode].
  destruct (is_high_surrogate u) eqn:Hh.
  - destruct t as [|v t']; [done|].
    destruct (is_low_surrogate v) eqn:Hv.
    + cbn [utf8_encode]. rewrite Hh, Hv, IH; [done|simpl; lia].
    + cbn [utf8_encode]. change (is_high_surrogate 0xFFFD) with false.
      change (is_low_surrogate 0xFFFD) with false. cbv iota.
      rewrite IH; [|simpl; lia]. cbn [utf8_encode]. by rewrite Hv.
  - destruct (is_low_surrogate u) eqn:Hl.
    + cbn [utf8_encode]. change (is_high_surrogate 0xFFFD) with false.
      change (is_low_surrogate 0xFFFD) with false. cbv iota.
      rewrite IH; [done|simpl; lia].
    + cbn [utf8_encode]. rewrite Hh, Hl, IH; [done|simpl; lia].
Qed.

Lemma toWellFormed_is_well_formed s :
  Forall (fun u => u < 0x10000) s -> well_formed (toWellFormed s) = true.
Proof.
  induction s as [s IH] using (induction_ltof1 _ (@length N)).
  unfold ltof in IH. intros Hs. destruct s as [|u t]; [done|].
  apply Forall_cons in Hs as [Hu Ht]. cbn [toWellFormed].
  destruct (is_high_surrogate u) eqn:Hh.
  - destruct t as [|v t']; [done|].
    apply Forall_cons in Ht as [Hv Ht'].
    destruct (is_low_surrogate v) eqn:Hl.
    + cbn [well_formed]. rewrite Hh, Hl, IH; [done|simpl; lia|done].
    + cbn [well_formed]. change (is_high_surrogate 0xFFFD) with false.
      change (is_low_surrogate 0xFFFD) with false. cbv iota.
      rewrite IH; [done|simpl; lia|by apply Forall_cons].
  - destruct (is_low_surrogate u) eqn:Hl.
    + cbn [well_formed]. change (is_high_surrogate 0xFFFD) with false.
      change (is_low_surrogate 0xFFFD) with false. cbv iota.
      rewrite IH; [done|simpl; lia|done].
    + cbn [well_formed]. rewrite Hh, Hl. cbn [negb andb].
      rewrite IH; [|simpl; lia|done].
      by destruct (N.ltb_spec u 0x10000); [|lia].
Qed.

Lemma validated_ascii req :
  validated req ->
  Forall (fun u => u < 0x80) (model_of req)
  /\ Forall (fun u => u < 0x80) (language_of req).
Proof.
  intros [Hl Hm]. split.
  - apply models_get_truthy_iff in Hm as [H|H].
    + assert (HF : Forall (Forall (fun u => u < 0x80))
                     (Object_keys CONFIG_models)) by by_computation.
      by eapply Forall_forall in HF.
    + assert (HF : Forall (Forall (fun u => u < 0x80)) Object_prototype)
        by by_computation.
      by eapply Forall_forall in HF.
  - apply includes_supported in Hl.
    assert (HF : Forall (Forall (fun u => u < 0x80)) CONFIG_languages)
      by by_computation.
    by eapply Forall_forall in HF.
Qed.

(** The key of a validated request is plain ASCII, so the cache client
    writes it as it is. *)
Lemma key_of_read_back req p :
  validated req -> toWellFormed (key_of req p) = key_of req p.
Proof.
  intros [Hm Hl]%validated_ascii. apply toWellFormed_ascii.
  assert (Hb : Forall (fun u => u < 0x80) (base64 (utf8_encode p))).
  { eapply Forall_impl; [apply base64_alphabet_or_pad|].
    assert (HF : Forall (fun u => u < 0x80) base64_alphabet)
      by by_computation.
    intros c [Hc| ->]; [by eapply Forall_forall in HF|done]. }
  assert (Hc : Forall (fun u => u < 0x80) (js ":")) by by_computation.
  assert (Hp : Forall (fun u => u < 0x80) (js "codegen:")) by by_computation.
  unfold key_of, cacheKey.
  apply Forall_app; split; [done|].
  apply Forall_app; split; [done|].
  apply Forall_app; split; [done|].
  apply Forall_app; split; [done|].
  apply Forall_app; split; done.
Qed.

(* ===================================================================== *)
(** * The claims *)
(* ===================================================================== *)

(** ** Cache hits *)

Lemma lookup_after_store key v w d :
  d < CONFIG_cacheTTL * 1000 ->
  redis_lookup (tick d (store key v w)) key = VStr (toWellFormed v).
Proof.
  intros Hd. unfold redis_lookup, tick, store. cbn [redis clock].
  rewrite lookup_insert_eq. cbn [expiresAt value].
  destruct (N.ltb_spec (clock w + d) (clock w + CONFIG_cacheTTL * 1000)); [done|lia].
Qed.

Lemma truthy_nonempty s : s <> [] -> truthy (VStr s) = true.
Proof. intros Hs. simpl. by rewrite bool_decide_eq_false_2. Qed.

(** The only response with [cached: true] is the one of the hit path. *)
Lemma cached_true_is_hit env req w r w1 tr :
  Run env req w (r, w1, tr) ->
  field "cached" r = Some (VBool true) ->
  exists p,
    validated req /\ prompt req = Some p /\ redis_get_fault env = None
    /\ truthy (redis_lookup w (key_of req p)) = true
    /\ r = hit_response (redis_lookup w (key_of req p))
    /\ w1 = w /\ tr = [EvGet (key_of req p)].
Proof.
  intros R Hc. inversion R; subst;
    try (by rewrite (proj1 (proj2 (proj2 (proj2 (on_error_fields _))))) in Hc);
    try (by destruct (miss_response_fields
                        (cleanCode raw)
                        (get_prop_opt (data reply) "explanation")
                        (model_of req) (language_of req))
           as (_&_&_&_&_&E); rewrite E in Hc);
    try discriminate.
  - by exists p.
  - destruct (miss_response_fields
                [] (get_prop_opt (data reply) "explanation")
                (model_of req) (language_of req)) as (_&_&_&_&_&E).
    by rewrite E in Hc.
Qed.

(** C10: a request answered as a cache hit ([cached: true]) leaves the
    world as it was, so the entry keeps its value and its expiry time, and
    the run made no cache write and no upstream call. *)
Theorem cache_hit_leaves_cache_unchanged env req w r w1 tr :
  handler env req w = (r, w1, tr) ->
  field "cached" r = Some (VBool true) ->
  w1 = w
  /\ Forall (fun e => wrote_cache e = false /\ posted e = false) tr.
Proof.
  intros H Hc. pose proof (handler_run env req w) as R. rewrite H in R.
  destruct (cached_true_is_hit _ _ _ _ _ _ R Hc) as (p&_&_&_&_&_&->&->).
  split; [done|]. by repeat constructor.
Qed.

(** C9: a response with [cached: true] has status 200, [status: true] and
    the cached text as [code], and has neither a [model] nor a [language]
    member, which the response of the miss path does have. *)
Theorem cache_hit_response_omits_model_and_language env req w r w1 tr :
  handler env req w = (r, w1, tr) ->
  field "cached" r = Some (VBool true) ->
  http_status r = 200
  /\ field "status" r = Some (VBool true)
  /\ is_Some (field "code" r)
  /\ field "model" r = None
  /\ field "language" r = None.
Proof.
  intros H Hc. pose proof (handler_run env req w) as R. rewrite H in R.
  destruct (cached_true_is_hit _ _ _ _ _ _ R Hc) as (p&_&_&_&Ht&->&_&_).
  rewrite (hit_response_body _ Ht). repeat split. by eexists.
Qed.

(** Every 200 response carries [status: true], a [code] and the [cached]
    flag; the one of the miss path carries [model] and [language] too. *)
Lemma success_response_members env req w r w1 tr :
  handler env req w = (r, w1, tr) ->
  http_status r = 200 ->
  field "status" r = Some (VBool true)
  /\ is_Some (field "code" r)
  /\ (field "cached" r = Some (VBool true)
      \/ field "cached" r = Some (VBool false)
         /\ field "model" r = Some (VStr (model_of req))
         /\ field "language" r = Some (VStr (language_of req))).
Proof.
  intros H Hs. pose proof (handler_run env req w) as R. rewrite H in R.
  inversion R; subst; try discriminate.
  - match goal with
    | Ht : truthy _ = true |- _ => rewrite (hit_response_body _ Ht)
    end.
    repeat split; [by eexists|by left].
  - destruct (miss_response_fields
                (cleanCode raw) (get_prop_opt (data reply) "explanation")
                (model_of req) (language_of req)) as (_&E1&E2&E3&E4&E5).
    rewrite E1, E2, E3, E4, E5. repeat split; [by eexists|by right].
  - destruct (miss_response_fields
                [] (get_prop_opt (data reply) "explanation")
                (model_of req) (language_of req)) as (_&E1&E2&E3&E4&E5).
    rewrite E1, E2, E3, E4, E5. repeat split; [by eexists|by right].
Qed.

(** The run that wrote to the cache and answered 200: what it sent and
    what it left under the key of the request. *)
Lemma stored_run env req w r w1 tr :
  Run env req w (r, w1, tr) ->
  http_status r = 200 ->
  Exists (fun e => wrote_cache e = true) tr ->
  exists p v,
    validated req /\ prompt req = Some p /\ v <> []
    /\ field "code" r = Some (VStr v)
    /\ redis w1 !! key_of req p
       = Some {| value := toWellFormed v;
                 expiresAt := clock w1 + CONFIG_cacheTTL * 1000 |}.
Proof.
  intros R Hs Hw.
  inversion R; subst; try discriminate;
    try match goal with
        | Ha : axios_post _ _ _ = _ |- _ =>
            pose proof (axios_post_events _ _ _ _ _ _ Ha) as [-> _]
        end;
    try (by repeat (apply Exists_cons in Hw as [Hw|Hw]; [done|]);
         apply Exists_nil in Hw).
  match goal with
  | |- context [miss_response ?c ?e ?m ?l] =>
      destruct (miss_response_fields c e m l) as (_&_&E2&_)
  end.
  rewrite bool_decide_eq_false_2 in E2 by done.
  eexists _, _.
  split; [done|]. split; [done|]. split; [done|]. split; [done|].
  unfold store. cbn [redis clock]. rewrite key_of_read_back by done.
  apply lookup_insert_eq.
Qed.

(** C1: when a run of the handler ended in a 200 response after storing
    its non-empty normalized result, the entry of the request's key holds
    that result as the cache client reads it back, and the same request
    served less than the TTL later by a working cache is served from that
    entry: its only call is the lookup of the key (no upstream call), the
    world is untouched, and the answer is 200 with [status: true],
    [cached: true] and the stored text as [code], which is the [code] of
    the first response when that has no lone surrogate. *)
Theorem repeated_request_served_from_cache env1 env2 req w r1 w1 tr1 d :
  handler env1 req w = (r1, w1, tr1) ->
  http_status r1 = 200 ->
  Exists (fun e => wrote_cache e = true) tr1 ->
  redis_get_fault env2 = None ->
  d < CONFIG_cacheTTL * 1000 ->
  exists p code r2,
    prompt req = Some p
    /\ field "code" r1 = Some (VStr code)
    /\ redis w1 !! key_of req p
       = Some {| value := toWellFormed code;
                 expiresAt := clock w1 + CONFIG_cacheTTL * 1000 |}
    /\ handler env2 req (tick d w1)
       = (r2, tick d w1, [EvGet (key_of req p)])
    /\ http_status r2 = 200
    /\ field "status" r2 = Some (VBool true)
    /\ field "cached" r2 = Some (VBool true)
    /\ field "code" r2 = Some (VStr (toWellFormed code))
    /\ (well_formed code = true -> field "code" r2 = field "code" r1).
Proof.
  intros H Hs Hw Hg Hd.
  pose proof (handler_run env1 req w) as R. rewrite H in R.
  destruct (stored_run _ _ _ _ _ _ R Hs Hw) as (p&v&Hv&Hp&Hne&Hc&He).
  assert (Hl : redis_lookup (tick d w1) (key_of req p)
               = VStr (toWellFormed v)).
  { unfold redis_lookup, tick. cbn [redis clock].
    rewrite key_of_read_back, He by done. cbn [expiresAt value].
    by destruct (N.ltb_spec (clock w1 + d)
                   (clock w1 + CONFIG_cacheTTL * 1000)); [|lia]. }
  assert (Ht : truthy (VStr (toWellFormed v)) = true)
    by (by apply truthy_nonempty, toWellFormed_nonempty).
  exists p, v, (hit_response (VStr (toWellFormed v))).
  split; [done|]. split; [done|]. split; [done|]. split.
  { rewrite <- Hl. apply handler_hit; try done. by rewrite Hl. }
  rewrite (hit_response_body _ Ht). repeat split.
  intros Hwf. by rewrite Hc, toWellFormed_well_formed.
Qed.

(** ** The empty result *)

(** C7: on the miss path, when the upstream reply carries a [code] string
    that normalizes to the empty string, the caller gets a 200 response
    with [status: true] and the placeholder as [code], and the run writes
    nothing to the cache. *)
Theorem empty_result_gets_placeholder_and_is_not_cached
    env req w p l r raw :
  validated req ->
  prompt req = Some p ->
  redis_get_fault env = None ->
  truthy (redis_lookup w (key_of req p)) = false ->
  upstream env (request_of req) = {| elapsed := l; answer := Final r |} ->
  200 <= status r < 300 ->
  get_prop (data r) "code" = inr (VStr raw) ->
  cleanCode raw = [] ->
  exists resp w1 tr,
    handler env req w = (resp, w1, tr)
    /\ http_status resp = 200
    /\ field "status" resp = Some (VBool true)
    /\ field "code" resp = Some (VStr (js "No code generated."))
    /\ redis w1 = redis w
    /\ Forall (fun e => wrote_cache e = false) tr.
Proof.
  intros Hv Hp Hg Hc Hu Hs Hcode Hclean.
  pose proof (axios_post_resolves env (request_of req) w l r Hu Hs) as Ha.
  assert (Ht : code_text (data r) = inr raw)
    by (unfold code_text; by rewrite Hcode).
  eexists _, _, _. split.
  { by eapply handler_empty. }
  destruct (miss_response_fields
              [] (get_prop_opt (data r) "explanation")
              (model_of req) (language_of req)) as (E0&E1&E2&_).
  repeat split; try done. by repeat constructor.
Qed.

(** ** Validation *)

(** A supported model passes the check of line 54. *)
Lemma supported_model_truthy m :
  supported_model m -> property_truthy (models_get m) = true.
Proof.
  intros [info E]%own_property_supported. unfold models_get. by rewrite E.
Qed.

(** A request with an unsupported language is rejected with a 400 before
    any call to the cache or the upstream service. *)
Lemma unsupported_language_is_rejected env req w :
  ~ supported_language (language_of req) ->
  rejected_before_io (handler env req w).
Proof.
  intros H. rewrite handler_rejects_language.
  - apply unsupported_language_rejected.
  - apply not_true_is_false. by rewrite includes_supported.
Qed.

(** So is a request whose model names no property of [CONFIG.models] at
    all, own or inherited. *)
Lemma unknown_model_is_rejected env req w :
  models_get (model_of req) = NoProperty ->
  rejected_before_io (handler env req w).
Proof.
  intros H. destruct (includes CONFIG_languages (language_of req)) eqn:Hl.
  - rewrite handler_rejects_model; [|done|by rewrite H].
    apply unsupported_model_rejected.
  - rewrite handler_rejects_language by done.
    apply unsupported_language_rejected.
Qed.

(** C8: the model name [constructor] is not in the supported set, yet
    the request is not rejected: [CONFIG.models[model]] finds the member
    inherited from [Object.prototype], so the handler looks the key up in
    the cache, calls the upstream service and answers 200. *)
Theorem inherited_property_name_passes_model_check :
  let out :=
    handler (healthy (generated (js "print(1)"))) inherited_model_request
      empty_world in
  ~ supported_model (model_of inherited_model_request)
  /\ ~ rejected_before_io out
  /\ http_status out.1.1 = 200
  /\ Exists (fun e => touched_cache e = true) out.2
  /\ Exists (fun e => posted e = true) out.2.
Proof.
  cbv zeta. split; [|split; [|split; [|split]]].
  - rewrite <- own_property_supported. vm_compute. by intros [? ?].
  - intros (H & _). vm_compute in H. discriminate.
  - vm_compute. done.
  - by_computation.
  - by_computation.
Qed.

(** C3 as stated fails for the empty prompt: the request is not rejected,
    the handler looks the key up and calls the upstream service. *)
Lemma empty_prompt_reaches_cache_and_upstream :
  let out :=
    handler (healthy (generated (js "print(1)"))) empty_prompt_request
      empty_world in
  ~ rejected_before_io out
  /\ Exists (fun e => touched_cache e = true) out.2
  /\ Exists (fun e => posted e = true) out.2.
Proof.
  cbv zeta. split; [|split].
  - intros (H & _). vm_compute in H. discriminate.
  - by_computation.
  - by_computation.
Qed.

(** The missing prompt is answered 500, not 400, by the [catch] block. *)
Example missing_prompt_answered_500 :
  let out :=
    handler (healthy (generated (js "print(1)")))
      {| prompt := None; language := None; model := None |} empty_world in
  http_status out.1.1 = 500
  /\ field "status" out.1.1 = Some (VBool false)
  /\ field "retryable" out.1.1 = Some (VBool true)
  /\ out.2 = [].
Proof. cbv zeta. vm_compute. by repeat split. Qed.

Lemma key_of_empty req :
  key_of req []
  = js "codegen:" ++ model_of req ++ js ":" ++ language_of req ++ js ":".
Proof.
  unfold key_of, cacheKey. cbn [utf8_encode base64]. by rewrite app_nil_r.
Qed.

(** A run that got past validation never answers 400. *)
Lemma validated_not_400 env req w :
  validated req -> http_status (handler env req w).1.1 <> 400.
Proof.
  intros [Hl Hm]. pose proof (handler_run env req w) as R.
  inversion R; simpl; try congruence; try done.
Qed.

(** C3, amended: the handler does not check the prompt.  With a language
    and a model that pass validation, an empty prompt goes on to the cache
    lookup under the key [codegen:<model>:<language>:] and, when that
    lookup finds nothing, to the upstream call, and is never answered
    400; a missing prompt is answered, before any call to the cache or
    the upstream service, with the 500 response of the [catch] block,
    [status: false] and [retryable: true]. *)
Theorem prompt_is_not_validated env req w :
  validated req ->
  (prompt req = Some [] ->
   (exists r w1 tr,
      handler env req w
      = (r, w1,
         EvGet (js "codegen:" ++ model_of req ++ js ":" ++ language_of req
                ++ js ":") :: tr)
      /\ http_status r <> 400)
   /\ (redis_get_fault env = None ->
       truthy (redis_lookup w (key_of req [])) = false ->
       exists r w1 tr,
         handler env req w
         = (r, w1,
            EvGet (js "codegen:" ++ model_of req ++ js ":"
                   ++ language_of req ++ js ":")
            :: EvPost (request_of req) :: tr)
         /\ http_status r <> 400))
  /\ (prompt req = None ->
      exists r,
        handler env req w = (r, w, [])
        /\ http_status r = 500
        /\ field "status" r = Some (VBool false)
        /\ field "retryable" r = Some (VBool true)).
Proof.
  intros Hv. split; [intros Hp; split|intros Hp].
  - pose proof (validated_not_400 env req w Hv) as Hs.
    pose proof (handler_run env req w) as R.
    rewrite <- key_of_empty.
    destruct (handler env req w) as [[r w1] tr].
    destruct Hv as [Hl Hm].
    inversion R; subst; try congruence;
      match goal with
      | Hq : prompt req = Some ?q |- _ => assert (q = []) as -> by congruence
      end;
      eexists _, _, _; (split; [reflexivity|exact Hs]).
  - intros Hg Hc.
    pose proof (validated_not_400 env req w Hv) as Hs.
    pose proof (handler_run env req w) as R.
    rewrite <- key_of_empty.
    destruct (handler env req w) as [[r w1] tr].
    destruct Hv as [Hl Hm].
    inversion R; subst; try congruence;
      match goal with
      | Hq : prompt req = Some ?q |- _ => assert (q = []) as -> by congruence
      end;
      try congruence;
      match goal with
      | Ha : axios_post _ _ _ = _ |- _ =>
          pose proof (axios_post_events _ _ _ _ _ _ Ha) as [-> _]
      end;
      eexists _, _, _; (split; [reflexivity|exact Hs]).
  - eexists. split; [by apply handler_no_prompt|]. done.
Qed.

(** ** Cache failures *)

(** C2 as stated fails when [redisClient.get] rejects: no upstream call
    follows and the caller receives the 500 response carrying the text of
    the cache error. *)
Lemma failed_get_aborts_the_request :
  let out := handler cache_down sample_request empty_world in
  ~ Exists (fun e => posted e = true) out.2
  /\ http_status out.1.1 = 500
  /\ field "error" out.1.1
     = Some (VStr (js "Request failed: The client is closed")).
Proof.
  cbv zeta. split; [|split].
  - intros H. revert H. by_computation.
  - vm_compute. done.
  - vm_compute. done.
Qed.

(** When [redisClient.setEx] rejects, the upstream call has been made and
    the generated code is lost to the caller: the answer is the 500. *)
Example failed_set_replaces_the_success_response :
  let out := handler cache_readonly sample_request empty_world in
  Exists (fun e => posted e = true) out.2
  /\ http_status out.1.1 = 500
  /\ field "code" out.1.1 = None
  /\ field "error" out.1.1
     = Some (VStr (js "Request failed: The client is closed")).
Proof.
  cbv zeta. split; [by_computation|]. vm_compute. by repeat split.
Qed.

(** C2, amended: for a request that passed validation, an error thrown by
    [redisClient.get] or [redisClient.setEx] ends the request in the
    [catch] block.  After a failed get there is no upstream call; a failed
    set comes after the upstream call and replaces the success response;
    in both cases the caller gets the 500 response built from the cache
    error, with [status: false]. *)
Theorem cache_failure_aborts_request env req w p :
  validated req ->
  prompt req = Some p ->
  (forall e,
     redis_get_fault env = Some e ->
     handler env req w = (on_error e, w, [EvGet (key_of req p)])
     /\ http_status (on_error e) = 500
     /\ field "status" (on_error e) = Some (VBool false))
  /\ (forall e l r raw,
        redis_get_fault env = None ->
        truthy (redis_lookup w (key_of req p)) = false ->
        upstream env (request_of req)
        = {| elapsed := l; answer := Final r |} ->
        200 <= status r < 300 ->
        get_prop (data r) "code" = inr (VStr raw) ->
        cleanCode raw <> [] ->
        redis_set_fault env = Some e ->
        exists w1,
          handler env req w
          = (on_error e, w1,
             [EvGet (key_of req p); EvPost (request_of req);
              EvSetEx (key_of req p) CONFIG_cacheTTL (cleanCode raw)])
          /\ redis w1 = redis w
          /\ http_status (on_error e) = 500
          /\ field "status" (on_error e) = Some (VBool false)).
Proof.
  intros Hv Hp. split.
  - intros e Hg. split; [by apply handler_get_failed|done].
  - intros e l r raw Hg Hc Hu Hs Hcode Hn Hset.
    pose proof (axios_post_resolves env (request_of req) w l r Hu Hs) as Ha.
    assert (Ht : code_text (data r) = inr raw)
      by (unfold code_text; by rewrite Hcode).
    exists {| redis := redis w; clock := clock w + l |}.
    split; [|done].
    by rewrite (handler_set_failed env req w p r raw e _ _
                  Hv Hp Hg Hc Ha Ht Hn Hset).
Qed.

(** ** Upstream failures *)

Lemma request_timeout req : timeout (request_of req) = 30000.
Proof. reflexivity. Qed.







(** A final response with a status below 400 and outside 2xx is not
    flagged retryable either. *)
Example final_304_is_not_retryable :
  failed_with false
    (handler not_modified sample_request empty_world).1.1.
Proof. vm_compute. by repeat split. Qed.


(** ** The cache key *)


(** Outside the well-formed strings [Buffer.from] is not injective: every
    lone surrogate becomes U+FFFD. *)
Remark lone_surrogates_share_their_bytes :
  utf8_encode [0xD800] = utf8_encode [0xDFFF]
  /\ well_formed [0xD800] = false /\ well_formed [0xDFFF] = false.
Proof. done. Qed.

(** ** Normalization *)

(** C6 as stated fails on the escaped quote: in backslash, backslash,
    quote the second backslash and the quote are replaced by a quote,
    which the first backslash now precedes. *)
Lemma escaped_quote_survives :
  cleanCode [backslash; backslash; double_quote] = [backslash; double_quote]
  /\ occurs backslash double_quote
       (cleanCode [backslash; backslash; double_quote]) = true.
Proof. done. Qed.

(** The example of the normalization: an actual newline, an actual tab
    and plain quotes. *)
Example cleanCode_escaped_sample :
  cleanCode escaped_sample
  = js "line1" ++ [newline] ++ js "line2" ++ [tab; double_quote]
    ++ js "quoted" ++ [double_quote].
Proof. reflexivity. Qed.

(** C6, amended: normalization replaces every backslash-n by a newline,
    then every backslash-t by a tab, then every backslash-quote by a
    quote, and then trims white space from both ends; no backslash-n and
    no backslash-t is left in the result, and the result neither starts
    nor ends with white space.  (Nothing is said about backslash-quote.) *)
Theorem cleanCode_normalizes s :
  cleanCode s
  = trim (replace_pair backslash double_quote [double_quote]
            (replace_pair backslash letter_t [tab]
               (replace_pair backslash letter_n [newline] s)))
  /\ occurs backslash letter_n (cleanCode s) = false
  /\ occurs backslash letter_t (cleanCode s) = false
  /\ (forall u, head (cleanCode s) = Some u -> is_whitespace u = false)
  /\ (forall u, last (cleanCode s) = Some u -> is_whitespace u = false)
  /\ exists pre post,
       replace_pair backslash double_quote [double_quote]
         (replace_pair backslash letter_t [tab]
            (replace_pair backslash letter_n [newline] s))
       = pre ++ cleanCode s ++ post
       /\ Forall (fun u => is_whitespace u = true) pre
       /\ Forall (fun u => is_whitespace u = true) post.
Proof.
  split; [done|]. unfold cleanCode.
  split; [|split; [|split; [|split]]].
  - apply occurs_trim.
    do 2 (apply replace_pair_no_new; [done..|]).
    by apply replace_pair_no_residual.
  - apply occurs_trim. apply replace_pair_no_new; [done..|].
    by apply replace_pair_no_residual.
  - intros u Hu. unfold trim in Hu.
    rewrite trimEnd_head in Hu by (by intros E; rewrite E in Hu).
    by eapply trimStart_head.
  - intros u. apply trimEnd_last.
  - set (t := replace_pair _ _ _ _).
    destruct (trimStart_suffix t) as (pre & E & F).
    destruct (trimEnd_prefix (trimStart t)) as (post & E' & F').
    exists pre, post. unfold trim. by rewrite <- E', <- E.
Qed.

(* ===================================================================== *)
(** * The statements at concrete inputs *)
(* ===================================================================== *)

Lemma sample_request_validated : validated sample_request.
Proof. by split. Defined.

Lemma run_eta env req w :
  handler env req w
  = ((handler env req w).1.1, (handler env req w).1.2, (handler env req w).2).
Proof. by destruct (handler env req w) as [[? ?] ?]. Defined.

(** The sample request served twice, five seconds apart. *)
Lemma repeated_request_served_from_cache_witness :
  exists p code r2,
    prompt sample_request = Some p
    /\ field "code"
         (handler (healthy (generated (js "print(1)"))) sample_request
            empty_world).1.1
       = Some (VStr code)
    /\ redis warm_world !! key_of sample_request p
       = Some {| value := toWellFormed code;
                 expiresAt := clock warm_world + CONFIG_cacheTTL * 1000 |}
    /\ handler (healthy without_code) sample_request (tick 5000 warm_world)
       = (r2, tick 5000 warm_world, [EvGet (key_of sample_request p)])
    /\ http_status r2 = 200
    /\ field "status" r2 = Some (VBool true)
    /\ field "cached" r2 = Some (VBool true)
    /\ field "code" r2 = Some (VStr (toWellFormed code))
    /\ (well_formed code = true ->
        field "code" r2
        = field "code"
            (handler (healthy (generated (js "print(1)"))) sample_request
               empty_world).1.1).
Proof.
  apply (repeated_request_served_from_cache
           (healthy (generated (js "print(1)"))) (healthy without_code)
           sample_request empty_world _ warm_world _ 5000
           (run_eta _ _ _)).
  - vm_compute. reflexivity.
  - by_computation.
  - reflexivity.
  - vm_compute. reflexivity.
Defined.

Lemma cache_hit_leaves_cache_unchanged_witness :
  (handler (healthy without_code) sample_request (tick 5000 warm_world)).1.2
  = tick 5000 warm_world
  /\ Forall (fun e => wrote_cache e = false /\ posted e = false)
       (handler (healthy without_code) sample_request
          (tick 5000 warm_world)).2.
Proof.
  apply (cache_hit_leaves_cache_unchanged
           (healthy without_code) sample_request (tick 5000 warm_world)
           _ _ _ (run_eta _ _ _)).
  vm_compute. reflexivity.
Defined.

Lemma cache_hit_response_omits_model_and_language_witness :
  let r :=
    (handler (healthy without_code) sample_request
       (tick 5000 warm_world)).1.1 in
  http_status r = 200
  /\ field "status" r = Some (VBool true)
  /\ is_Some (field "code" r)
  /\ field "model" r = None
  /\ field "language" r = None.
Proof.
  apply (cache_hit_response_omits_model_and_language
           (healthy without_code) sample_request (tick 5000 warm_world)
           _ _ _ (run_eta _ _ _)).
  vm_compute. reflexivity.
Defined.

Lemma empty_result_gets_placeholder_and_is_not_cached_witness :
  exists resp w1 tr,
    handler (healthy (generated blank_code)) sample_request empty_world
    = (resp, w1, tr)
    /\ http_status resp = 200
    /\ field "status" resp = Some (VBool true)
    /\ field "code" resp = Some (VStr (js "No code generated."))
    /\ redis w1 = redis empty_world
    /\ Forall (fun e => wrote_cache e = false) tr.
Proof.
  apply (empty_result_gets_placeholder_and_is_not_cached
           (healthy (generated blank_code)) sample_request empty_world
           (js "sum of a list") 1200
           {| status := 200; data := generated blank_code |} blank_code
           sample_request_validated).
  - reflexivity.
  - reflexivity.
  - vm_compute. reflexivity.
  - reflexivity.
  - simpl. lia.
  - reflexivity.
  - reflexivity.
Defined.

Lemma prompt_is_not_validated_witness :
  exists r w1 tr,
    handler (healthy (generated (js "print(1)"))) empty_prompt_request
      empty_world
    = (r, w1,
       EvGet (js "codegen:" ++ model_of empty_prompt_request ++ js ":"
              ++ language_of empty_prompt_request ++ js ":")
       :: EvPost (request_of empty_prompt_request) :: tr)
    /\ http_status r <> 400.
Proof.
  apply (proj2 (proj1 (prompt_is_not_validated
                         (healthy (generated (js "print(1)")))
                         empty_prompt_request empty_world
                         (conj eq_refl eq_refl))
                  eq_refl)).
  - reflexivity.
  - vm_compute. reflexivity.
Defined.

Lemma cache_failure_aborts_request_witness :
  handler cache_down sample_request empty_world
  = (on_error redis_down, empty_world,
     [EvGet (key_of sample_request (js "sum of a list"))])
  /\ http_status (on_error redis_down) = 500
  /\ field "status" (on_error redis_down) = Some (VBool false).
Proof.
  apply (proj1 (cache_failure_aborts_request
                  cache_down sample_request empty_world
                  (js "sum of a list") sample_request_validated eq_refl)).
  reflexivity.
Defined.



(* ===================================================================== *)
(** * Further properties of the handler and its parts *)
(* ===================================================================== *)

(** ** What a run leaves behind *)

Lemma axios_post_clock env u w x w1 tr :
  axios_post env u w = (x, w1, tr) -> clock w <= clock w1.
Proof.
  unfold axios_post. intros H. repeat case_match; simplify_eq/=; lia.
Qed.


(** The world after a run: the clock has not gone back, and the store is
    the old one, or the old one with the entry of this request written
    by a 200 response of the miss path. *)
Lemma run_effect env req w r w1 tr :
  Run env req w (r, w1, tr) ->
  clock w <= clock w1
  /\ (redis w1 = redis w
      \/ exists p v,
           prompt req = Some p /\ v <> [] /\ http_status r = 200
           /\ field "cached" r = Some (VBool false)
           /\ field "code" r = Some (VStr v)
           /\ redis w1
              = <[key_of req p :=
                    {| value := toWellFormed v;
                       expiresAt := clock w1 + CONFIG_cacheTTL * 1000 |}]>
                  (redis w)).
Proof.
  intros R. inversion R; subst;
    try match goal with
        | Ha : axios_post _ _ _ = _ |- _ =>
            pose proof (axios_post_clock _ _ _ _ _ _ Ha) as Hclock;
            pose proof (axios_post_events _ _ _ _ _ _ Ha) as [_ Hredis]
        end;
    (split; [cbn [store clock]; lia|]); try (by left).
  right.
  match goal with
  | |- context [miss_response ?c ?e ?m ?l] =>
      destruct (miss_response_fields c e m l) as (E0&_&E2&_&_&E5)
  end.
  rewrite bool_decide_eq_false_2 in E2 by done.
  eexists _, _. repeat split; try done.
  unfold store. cbn [redis clock]. by rewrite Hredis, key_of_read_back.
Qed.

(** X1: a run that does not answer 200 leaves every cache entry as it
    was; only a success response goes with a write. *)
Theorem failure_leaves_store_unchanged env req w r w1 tr :
  handler env req w = (r, w1, tr) ->
  http_status r <> 200 ->
  redis w1 = redis w.
Proof.
  intros H Hs. pose proof (handler_run env req w) as R. rewrite H in R.
  destruct (run_effect _ _ _ _ _ _ R) as [_ [E|(p&v&_&_&E&_)]]; done.
Qed.

(** X2: a run touches no entry but the one of its own key. *)
Theorem other_keys_untouched env req w r w1 tr k :
  handler env req w = (r, w1, tr) ->
  (forall p, prompt req = Some p -> k <> key_of req p) ->
  redis w1 !! k = redis w !! k.
Proof.
  intros H Hk. pose proof (handler_run env req w) as R. rewrite H in R.
  destruct (run_effect _ _ _ _ _ _ R) as [_ [E|(p&v&Hp&_&_&_&_&E)]];
    rewrite E; [done|].
  apply lookup_insert_ne. intros <-. by apply (Hk p).
Qed.

(** X3: the handler never stores an empty text: if no entry of the cache
    is empty before a run, none is after it. *)
Theorem no_empty_entry_preserved env req w r w1 tr :
  handler env req w = (r, w1, tr) ->
  no_empty_entry w ->
  no_empty_entry w1.
Proof.
  intros H Hw. pose proof (handler_run env req w) as R. rewrite H in R.
  unfold no_empty_entry in *.
  destruct (run_effect _ _ _ _ _ _ R) as [_ [E|(p&v&_&Hv&_&_&_&E)]];
    rewrite E; [done|].
  apply map_Forall_insert_2; [|done]. by apply toWellFormed_nonempty.
Qed.

(** X4: after a run that stored its result, the entry of the request's
    key holds the [code] sent to the caller as the cache client reads it
    back (the code itself when it has no lone surrogate, each lone
    surrogate turned into U+FFFD otherwise) and expires 3600 s after the
    write, whatever the key held before. *)
Theorem stored_entry_is_the_response_code env req w r w1 tr :
  handler env req w = (r, w1, tr) ->
  http_status r = 200 ->
  Exists (fun e => wrote_cache e = true) tr ->
  exists p v,
    prompt req = Some p
    /\ field "code" r = Some (VStr v)
    /\ redis w1 !! key_of req p
       = Some {| value := toWellFormed v;
                 expiresAt := clock w1 + 3600 * 1000 |}
    /\ (well_formed v = true ->
        redis w1 !! key_of req p
        = Some {| value := v; expiresAt := clock w1 + 3600 * 1000 |}).
Proof.
  intros H Hs Hw. pose proof (handler_run env req w) as R. rewrite H in R.
  destruct (stored_run _ _ _ _ _ _ R Hs Hw) as (p&v&_&Hp&_&Hc&Hl).
  exists p, v. repeat split; try done.
  intros Hwf. rewrite toWellFormed_well_formed in Hl by done. exact Hl.
Qed.

(** X5: once the TTL has run out the stored result is no longer served:
    the same request, 3600 s or more after the write, is a miss again and
    goes to the upstream service. *)
Theorem expired_entry_is_fetched_again env1 env2 req w r1 w1 tr1 d :
  handler env1 req w = (r1, w1, tr1) ->
  http_status r1 = 200 ->
  Exists (fun e => wrote_cache e = true) tr1 ->
  redis_get_fault env2 = None ->
  CONFIG_cacheTTL * 1000 <= d ->
  let out := handler env2 req (tick d w1) in
  Exists (fun e => posted e = true) out.2
  /\ field "cached" out.1.1 <> Some (VBool true).
Proof.
  intros H Hs Hw Hg Hd. cbv zeta.
  pose proof (handler_run env1 req w) as R. rewrite H in R.
  destruct (stored_run _ _ _ _ _ _ R Hs Hw) as (p&v&Hv&Hp&_&_&Hl).
  assert (Hmiss : truthy (redis_lookup (tick d w1) (key_of req p)) = false).
  { unfold redis_lookup, tick. cbn [redis clock].
    rewrite key_of_read_back, Hl by done.
    cbn [expiresAt].
    by destruct (N.ltb_spec (clock w1 + d) (clock w1 + CONFIG_cacheTTL * 1000));
      [lia|]. }
  pose proof (handler_run env2 req (tick d w1)) as R2.
  destruct (handler env2 req (tick d w1)) as [[r2 w2] tr2]. cbn [fst snd].
  split.
  - destruct Hv as [Hvl Hvm].
    inversion R2; subst; try congruence;
      match goal with
      | Ha : axios_post _ _ _ = _ |- _ =>
          pose proof (axios_post_events _ _ _ _ _ _ Ha) as [-> _]
      end; by right; left.
  - intros Hc.
    destruct (cached_true_is_hit _ _ _ _ _ _ R2 Hc) as (q&_&Hq&_&Ht&_).
    congruence.
Qed.

(** ** The shape of the responses and of the calls *)


(** X7: a run calls its collaborators in one fixed order and each at most
    once: nothing; or the cache lookup; or the lookup and the upstream
    post; or lookup, post and a write.  The write goes to the key that
    was looked up, with the TTL of the configuration and a non-empty
    text. *)
Theorem calls_in_order env req w :
  let tr := (handler env req w).2 in
  tr = []
  \/ exists p,
       prompt req = Some p
       /\ (tr = [EvGet (key_of req p)]
           \/ tr = [EvGet (key_of req p); EvPost (request_of req)]
           \/ exists v,
                v <> []
                /\ tr = [EvGet (key_of req p); EvPost (request_of req);
                         EvSetEx (key_of req p) CONFIG_cacheTTL v]).
Proof.
  cbv zeta. pose proof (handler_run env req w) as R.
  destruct (handler env req w) as [[r w1] tr]. cbn [snd].
  inversion R; subst; try (by left);
    try match goal with
        | Ha : axios_post _ _ _ = _ |- _ =>
            pose proof (axios_post_events _ _ _ _ _ _ Ha) as [-> _]
        end;
    right; eexists; (split; [eassumption|]);
    try (by left); try (by right; left);
    right; right; by eexists.
Qed.

(** X8: the [code] of a 200 response is a non-empty string, be it the
    cached text, the normalized text or the placeholder. *)
Theorem success_code_is_nonempty env req w r w1 tr :
  handler env req w = (r, w1, tr) ->
  http_status r = 200 ->
  exists code, field "code" r = Some (VStr code) /\ code <> [].
Proof.
  intros H Hs. pose proof (handler_run env req w) as R. rewrite H in R.
  inversion R; subst; try discriminate.
  - match goal with
    | Ht : truthy _ = true |- _ =>
        rewrite (hit_response_body _ Ht); revert Ht
    end.
    unfold redis_lookup. repeat case_match; try done.
    cbn. intros Ht. eexists. split; [done|].
    by apply negb_true_iff, bool_decide_eq_false in Ht.
  - match goal with
    | |- context [miss_response ?c ?e ?m ?l] =>
        destruct (miss_response_fields c e m l) as (_&_&E&_)
    end.
    rewrite bool_decide_eq_false_2 in E by done. by eexists.
  - match goal with
    | |- context [miss_response ?c ?e ?m ?l] =>
        destruct (miss_response_fields c e m l) as (_&_&E&_)
    end.
    by eexists.
Qed.

(** ** The encodings behind the key *)

(** X12: Base64 writes four characters for every three bytes, the last
    group padded: the text has [4 * ceil(n / 3)] characters. *)
Theorem base64_length bs :
  length (base64 bs) = (4 * ((length bs + 2) / 3))%nat.
Proof.
  induction bs as [bs IH] using (induction_ltof1 _ (@length byte)).
  unfold ltof in IH.
  destruct bs as [|a [|b [|c rest]]]; [done..|].
  cbn [base64 length]. rewrite IH by (simpl; lia).
  replace (S (S (S (length rest))) + 2)%nat
    with (1 * 3 + (length rest + 2))%nat by lia.
  rewrite Nat.div_add_l by done. lia.
Qed.

(** X13: the Base64 text consists of the 64 characters of the alphabet
    and the padding sign; in particular it never contains the colon that
    separates the parts of the key. *)
Theorem base64_characters bs :
  Forall (fun c => c ∈ base64_alphabet \/ c = base64_pad) (base64 bs)
  /\ colon ∉ base64 bs.
Proof.
  pose proof (base64_alphabet_or_pad bs) as H.
  split; [done|]. intros Hc.
  eapply Forall_forall in H; [|exact Hc].
  destruct H as [H|H]; [|done]. revert H. compute_done.
Qed.

Lemma utf8_units_length c :
  (1 <= length (utf8_units c) <= 4)%nat
  /\ (c < 0x10000 -> (length (utf8_units c) <= 3)%nat).
Proof.
  unfold utf8_units. repeat case_match; cbn; split; lia.
Qed.

(** X14: [Buffer.from] writes at least one byte for every code unit and,
    for a string of 16-bit code units, at most three. *)
Theorem utf8_encode_length s :
  Forall (fun u => u < 0x10000) s ->
  (length s <= length (utf8_encode s) <= 3 * length s)%nat.
Proof.
  induction s as [s IH] using (induction_ltof1 _ (@length N)).
  unfold ltof in IH. intros Hs.
  destruct s as [|u t]; [done|].
  apply Forall_cons in Hs as [Hu Ht].
  cbn [utf8_encode].
  destruct (is_high_surrogate u) eqn:Hh.
  - destruct t as [|v t']; [cbn; lia|].
    apply Forall_cons in Ht as [Hv Ht'].
    destruct (is_low_surrogate v).
    + rewrite length_app. unfold utf8_of_code_point. rewrite length_map.
      assert (Hc : length
                     (utf8_units
                        (0x10000 + (u - 0xD800) * 1024 + (v - 0xDC00)))
                   = 4%nat).
      { unfold utf8_units. unfold is_high_surrogate in Hh.
        repeat case_match; try done; lia. }
      rewrite Hc. specialize (IH t' ltac:(simpl; lia) Ht'). cbn [length]. lia.
    + rewrite length_app.
      specialize (IH (v :: t') ltac:(simpl; lia)
                    ltac:(by apply Forall_cons)).
      cbn [length utf8_replacement] in *. lia.
  - specialize (IH t ltac:(simpl; lia) Ht).
    destruct (is_low_surrogate u).
    + rewrite length_app. cbn [length utf8_replacement] in *. lia.
    + rewrite length_app. unfold utf8_of_code_point. rewrite length_map.
      destruct (utf8_units_length u) as [H1 H3]. specialize (H3 Hu).
      cbn [length]. lia.
Qed.

(** X15: a string of ASCII characters is written one byte per character,
    each byte the code of its character. *)
Theorem utf8_encode_ascii s :
  Forall (fun u => u < 0x80) s ->
  map Byte.to_N (utf8_encode s) = s.
Proof.
  induction 1 as [|u t Hu _ IH]; [done|].
  cbn [utf8_encode]. unfold is_high_surrogate, is_low_surrogate.
  destruct (N.leb_spec 0xD800 u); [lia|].
  destruct (N.leb_spec 0xDC00 u); [lia|]. cbn [andb].
  rewrite map_app, IH, utf8_units_values by lia.
  unfold utf8_units. by destruct (N.ltb_spec u 0x80); [|lia].
Qed.

(** ** Normalization *)

Lemma trimStart_fixed s :
  (forall u, head s = Some u -> is_whitespace u = false) -> trimStart s = s.
Proof.
  destruct s as [|x t]; [done|]. intros H. cbn [trimStart].
  by rewrite (H x eq_refl).
Qed.

Lemma trimEnd_fixed s :
  (forall u, last s = Some u -> is_whitespace u = false) -> trimEnd s = s.
Proof.
  induction s as [|x t IH]; [done|]. intros H. cbn [trimEnd].
  destruct t as [|y t'].
  - cbn. by rewrite (H x eq_refl).
  - rewrite IH; [done|]. intros u Hu. apply H.
    rewrite last_cons, Hu. done.
Qed.

Lemma trim_ends s :
  (forall u, head (trim s) = Some u -> is_whitespace u = false)
  /\ (forall u, last (trim s) = Some u -> is_whitespace u = false).
Proof.
  split; intros u Hu; unfold trim in *.
  - rewrite trimEnd_head in Hu by (by intros E; rewrite E in Hu).
    by eapply trimStart_head.
  - by eapply trimEnd_last.
Qed.

(** X16: trimming is idempotent, so the text written to the cache and
    sent to the caller is unchanged by a further [trim]. *)
Theorem trim_idempotent s :
  trim (trim s) = trim s /\ trim (cleanCode s) = cleanCode s.
Proof.
  assert (H : forall t, trim (trim t) = trim t).
  { intros t. destruct (trim_ends t) as [Hh Hl].
    unfold trim at 1. by rewrite (trimStart_fixed _ Hh), (trimEnd_fixed _ Hl). }
  split; [done|]. unfold cleanCode. apply H.
Qed.

Lemma replace_pair_absent a b r s : a ∉ s -> replace_pair a b r s = s.
Proof.
  induction s as [|x t IH]; [done|]. intros [Hx Ht]%not_elem_of_cons.
  destruct t as [|y t']; [done|]. rewrite replace_pair_cons2.
  destruct (N.eqb_spec x a); [done|]. cbn [andb]. by rewrite IH.
Qed.

(** X17: a text without any backslash is only trimmed. *)
Theorem cleanCode_without_backslash s :
  backslash ∉ s -> cleanCode s = trim s.
Proof.
  intros H. unfold cleanCode.
  by do 3 rewrite (replace_pair_absent backslash _ _ s H).
Qed.

Lemma replace_pair_length a b c s :
  (length (replace_pair a b [c] s) <= length s)%nat.
Proof.
  induction s as [s IH] using (induction_ltof1 _ (@length N)).
  unfold ltof in IH. destruct s as [|x [|y t]]; [done..|].
  rewrite replace_pair_cons2. case_match; cbn [app length].
  - specialize (IH t ltac:(simpl; lia)). lia.
  - specialize (IH (y :: t) ltac:(simpl; lia)). cbn [length] in IH. lia.
Qed.

Lemma trim_length s : (length (trim s) <= length s)%nat.
Proof.
  destruct (trimStart_suffix s) as (pre & E & _).
  destruct (trimEnd_prefix (trimStart s)) as (post & E' & _).
  unfold trim. rewrite E at 2. rewrite E' at 2. rewrite !length_app. lia.
Qed.

(** X18: normalization never makes the text longer. *)
Theorem cleanCode_length s : (length (cleanCode s) <= length s)%nat.
Proof.
  unfold cleanCode. etrans; [apply trim_length|].
  do 2 (etrans; [apply replace_pair_length|]). apply replace_pair_length.
Qed.

Lemma trimStart_whitespace s :
  Forall (fun u => is_whitespace u = true) s -> trimStart s = [].
Proof. induction 1 as [|x t Hx _ IH]; [done|]. cbn. by rewrite Hx. Qed.

(** X19: the normalized text is empty, and the placeholder is sent,
    exactly when the text left by the three replacements is white space
    only. *)
Theorem cleanCode_empty_iff s :
  cleanCode s = [] <-> Forall (fun u => is_whitespace u = true) (unescaped s).
Proof.
  change (cleanCode s) with (trim (unescaped s)).
  generalize (unescaped s). intros t. split.
  - intros H.
    destruct (trimStart_suffix t) as (pre & E & F).
    destruct (trimEnd_prefix (trimStart t)) as (post & E' & F').
    unfold trim in H. rewrite H in E'. rewrite E, E'.
    by apply Forall_app.
  - intros H. unfold trim. by rewrite trimStart_whitespace.
Qed.

(** ** The upstream call and the error text *)

Lemma axios_post_status_error env u w h :
  answer (upstream env u) = Final h ->
  status h < 200 \/ 300 <= status h ->
  axios_post env u w
  = (inl {| message := js "Request failed with status code "
                       ++ decimal (status h);
            response := Some h |},
     {| redis := redis w; clock := clock w + elapsed (upstream env u) |},
     [EvPost u]).
Proof.
  intros Ha Hs. unfold axios_post. rewrite Ha.
  by destruct (N.leb_spec 200 (status h)), (N.ltb_spec (status h) 300);
    cbn [andb]; try lia.
Qed.

(** X21: when the exchange with the upstream service ends with a response
    whose status is outside 2xx, the caller reads, after the words
    [Request failed: ], the [message] of the reply's body if that is a
    truthy string, number or boolean, and axios's own text with the
    status code if the body has no [message] or a falsy one. *)
Theorem upstream_message_is_surfaced env req w p h :
  validated req ->
  prompt req = Some p ->
  redis_get_fault env = None ->
  truthy (redis_lookup w (key_of req p)) = false ->
  answer (upstream env (request_of req)) = Final h ->
  status h < 200 \/ 300 <= status h ->
  is_primitive (get_prop_opt (data h) "message") = true ->
  field "error" (handler env req w).1.1
  = Some (VStr (js "Request failed: "
                ++ (if truthy (get_prop_opt (data h) "message")
                    then ToString (get_prop_opt (data h) "message")
                    else js "Request failed with status code "
                         ++ decimal (status h)))).
Proof.
  intros Hv Hp Hg Hc Ha Hs _.
  rewrite (handler_post_failed _ _ _ _ _ _ _ Hv Hp Hg Hc
             (axios_post_status_error env (request_of req) w h Ha Hs)).
  cbn [fst]. destruct (on_error_fields
    {| message := js "Request failed with status code " ++ decimal (status h);
       response := Some h |}) as (_&_&_&_&E).
  rewrite E. unfold response_message, or_else. cbn [response message].
  by destruct (truthy (get_prop_opt (data h) "message")).
Qed.

(** X22: an error of the cache client, which carries no HTTP response, is
    reported on a failed lookup with its own text and flagged retryable. *)
Theorem cache_error_is_reported_retryable env req w p e :
  validated req ->
  prompt req = Some p ->
  redis_get_fault env = Some e ->
  response e = None ->
  let r := (handler env req w).1.1 in
  http_status r = 500
  /\ field "retryable" r = Some (VBool true)
  /\ field "error" r = Some (VStr (js "Request failed: " ++ message e)).
Proof.
  intros Hv Hp Hg He. cbv zeta.
  rewrite (handler_get_failed _ _ _ _ _ Hv Hp Hg). cbn [fst].
  destruct (on_error_fields e) as (E0&_&E2&_&E4).
  rewrite E0, E2, E4. unfold retryable, response_message, or_else.
  by rewrite He.
Qed.

(** ** The further properties at concrete inputs *)

Lemma failure_leaves_store_unchanged_witness :
  redis (handler cache_down sample_request empty_world).1.2
  = redis empty_world.
Proof.
  apply (failure_leaves_store_unchanged
           cache_down sample_request empty_world _ _ _ (run_eta _ _ _)).
  by_computation.
Defined.

Lemma other_keys_untouched_witness :
  redis (handler (healthy (generated (js "print(1)"))) sample_request
           empty_world).1.2 !! js "codegen:other"
  = redis empty_world !! js "codegen:other".
Proof.
  apply (other_keys_untouched
           (healthy (generated (js "print(1)"))) sample_request empty_world
           _ _ _ (js "codegen:other") (run_eta _ _ _)).
  intros p [= <-]. by_computation.
Defined.

Lemma no_empty_entry_preserved_witness :
  no_empty_entry
    (handler (healthy (generated (js "print(1)"))) sample_request
       empty_world).1.2.
Proof.
  apply (no_empty_entry_preserved
           (healthy (generated (js "print(1)"))) sample_request empty_world
           _ _ _ (run_eta _ _ _)).
  apply map_Forall_empty.
Defined.

Lemma stored_entry_is_the_response_code_witness :
  exists p v,
    prompt sample_request = Some p
    /\ field "code"
         (handler (healthy (generated (js "print(1)"))) sample_request
            empty_world).1.1
       = Some (VStr v)
    /\ redis warm_world !! key_of sample_request p
       = Some {| value := toWellFormed v;
                 expiresAt := clock warm_world + 3600 * 1000 |}
    /\ (well_formed v = true ->
        redis warm_world !! key_of sample_request p
        = Some {| value := v;
                  expiresAt := clock warm_world + 3600 * 1000 |}).
Proof.
  apply (stored_entry_is_the_response_code
           (healthy (generated (js "print(1)"))) sample_request empty_world
           _ warm_world _ (run_eta _ _ _)).
  - vm_compute. reflexivity.
  - by_computation.
Defined.

Lemma expired_entry_is_fetched_again_witness :
  let out :=
    handler (healthy without_code) sample_request
      (tick 3600000 warm_world) in
  Exists (fun e => posted e = true) out.2
  /\ field "cached" out.1.1 <> Some (VBool true).
Proof.
  apply (expired_entry_is_fetched_again
           (healthy (generated (js "print(1)"))) (healthy without_code)
           sample_request empty_world _ warm_world _ 3600000
           (run_eta _ _ _)).
  - vm_compute. reflexivity.
  - by_computation.
  - reflexivity.
  - vm_compute. discriminate.
Defined.

Lemma success_code_is_nonempty_witness :
  exists code,
    field "code"
      (handler (healthy (generated blank_code)) sample_request
         empty_world).1.1
    = Some (VStr code)
    /\ code <> [].
Proof.
  apply (success_code_is_nonempty
           (healthy (generated blank_code)) sample_request empty_world
           _ _ _ (run_eta _ _ _)).
  vm_compute. reflexivity.
Defined.

Lemma utf8_encode_length_witness :
  (length accented <= length (utf8_encode accented)
   <= 3 * length accented)%nat.
Proof.
  apply (utf8_encode_length accented). by_computation.
Defined.

Lemma utf8_encode_ascii_witness :
  map Byte.to_N (utf8_encode (js "sum of a list")) = js "sum of a list".
Proof.
  apply (utf8_encode_ascii (js "sum of a list")). by_computation.
Defined.

Lemma cleanCode_without_backslash_witness :
  cleanCode (js "  x = 1 ") = trim (js "  x = 1 ").
Proof.
  apply (cleanCode_without_backslash (js "  x = 1 ")). by_computation.
Defined.

Lemma upstream_message_is_surfaced_witness :
  field "error" (handler rate_limited sample_request empty_world).1.1
  = Some (VStr (js "Request failed: Too many requests")).
Proof.
  apply (upstream_message_is_surfaced
           rate_limited sample_request empty_world (js "sum of a list")
           {| status := 429;
              data := VObj [(js "message", VStr (js "Too many requests"))] |}
           sample_request_validated eq_refl eq_refl eq_refl eq_refl).
  - right. vm_compute. discriminate.
  - reflexivity.
Defined.

Lemma cache_error_is_reported_retryable_witness :
  let r := (handler cache_down sample_request empty_world).1.1 in
  http_status r = 500
  /\ field "retryable" r = Some (VBool true)
  /\ field "error" r
     = Some (VStr (js "Request failed: " ++ message redis_down)).
Proof.
  apply (cache_error_is_reported_retryable
           cache_down sample_request empty_world (js "sum of a list")
           redis_down sample_request_validated eq_refl eq_refl eq_refl).
Defined.
